(** * Burger shop server: a model of [server.cpp] and its synchronisation
    protocol.

    The shared counters of the server, one chef thread, one client handler
    thread and the accept loop of [main] are embedded as executable
    functions; the threads are interleaved by an explicit scheduler
    ([step]/[run]) whose atomic steps are the regions of the source that run
    between two synchronisation points (a critical section under [mtx], a
    [notify_all], a test of the loop condition).  Status lines printed on
    [cout] are not part of the model. *)

From Stdlib Require Import ZArith Lia Bool Ascii String.
From stdpp Require Import base list strings.

Local Open Scope Z_scope.

(** ** Machine integers

    [int] and [atomic<int>] are 32-bit two's complement; [operator++] on
    them is modelled with its wrap-around written out. *)

Definition INT_MIN : Z := -2147483648.
Definition INT_MAX : Z := 2147483647.

Definition is_int (x : Z) : Prop := INT_MIN <= x <= INT_MAX.

Definition wrap_int (x : Z) : Z := (x + 2147483648) mod 4294967296 - 2147483648.

(** [x++] *)
Definition incr (x : Z) : Z := wrap_int (x + 1).

(** ** C strings

    A buffer is a [string] whose characters are its bytes; what lies beyond
    its end is zero (the handler clears [orderBuffer] with [memset] before
    every [recv], a literal ends in its terminator). *)

Definition NUL : ascii := Ascii.zero.

Definition code (c : ascii) : Z := Z.of_N (N_of_ascii c).

(** [strcmp]: walk both buffers while the bytes agree, stop at a
    terminator, otherwise return the difference of the first bytes that
    differ (as [unsigned char]). *)
Fixpoint strcmp (a b : string) : Z :=
  match a, b with
  | EmptyString, EmptyString => 0
  | EmptyString, String d _ => 0 - code d
  | String c _, EmptyString => code c - 0
  | String c a', String d b' =>
      if Ascii.eqb c d
      then (if Ascii.eqb c NUL then 0 else strcmp a' b')
      else code c - code d
  end.

(** The C string held in a buffer: its bytes up to the first terminator. *)
Fixpoint c_string (s : string) : string :=
  match s with
  | EmptyString => EmptyString
  | String c r => if Ascii.eqb c NUL then EmptyString else String c (c_string r)
  end.

(** [atoi] of the C library, which is [(int) strtol (s, NULL, 10)]:
    leading white space, an optional sign, then decimal digits; anything
    else ends the number (no digit at all gives 0).  [strtol] saturates at
    the bounds of [long] (64 bits here) and the conversion to [int] keeps
    the low 32 bits; ISO C leaves the result undefined when the number does
    not fit an [int]. *)
Definition LONG_MIN : Z := -9223372036854775808.
Definition LONG_MAX : Z := 9223372036854775807.

Definition clamp_long (x : Z) : Z := Z.max LONG_MIN (Z.min LONG_MAX x).

Definition isspace (c : ascii) : bool :=
  let n := code c in (n =? 32) || ((9 <=? n) && (n <=? 13)).

Definition digit_of (c : ascii) : option Z :=
  let n := code c in
  if (48 <=? n) && (n <=? 57) then Some (n - 48) else None.

Fixpoint skip_space (s : string) : string :=
  match s with
  | String c r => if isspace c then skip_space r else s
  | EmptyString => s
  end.

Fixpoint atoi_digits (acc : Z) (s : string) : Z :=
  match s with
  | String c r =>
      match digit_of c with
      | Some d => atoi_digits (10 * acc + d) r
      | None => acc
      end
  | EmptyString => acc
  end.

Definition atoi (s : string) : Z :=
  match skip_space s with
  | String "-"%char r => wrap_int (clamp_long (- atoi_digits 0 r))
  | String "+"%char r => wrap_int (clamp_long (atoi_digits 0 r))
  | t => wrap_int (clamp_long (atoi_digits 0 t))
  end.

(** ** Global variables of the server *)

Record globals : Type := Globals {
  burgersPrepared : Z;   (* atomic<int>, burgers prepared so far *)
  burgersServed : Z;     (* atomic<int>, burgers served so far *)
  maxBurgers : Z;        (* int, the quota *)
  numChefs : Z;          (* int, number of chef threads *)
  serverRunning : bool   (* atomic<bool> *)
}.

(** The initialisers of the globals. *)
Definition globals0 : globals := Globals 0 0 25 2 true.

Definition set_burgersPrepared (v : Z) (g : globals) : globals :=
  Globals v (burgersServed g) (maxBurgers g) (numChefs g) (serverRunning g).

Definition set_burgersServed (v : Z) (g : globals) : globals :=
  Globals (burgersPrepared g) v (maxBurgers g) (numChefs g) (serverRunning g).

Definition set_serverRunning (b : bool) (g : globals) : globals :=
  Globals (burgersPrepared g) (burgersServed g) (maxBurgers g) (numChefs g) b.

Definition set_config (mb nc : Z) (g : globals) : globals :=
  Globals (burgersPrepared g) (burgersServed g) mb nc (serverRunning g).

(** Every global holds a value of its C type. *)
Definition typed (g : globals) : Prop :=
  is_int (burgersPrepared g) /\ is_int (burgersServed g) /\ is_int (maxBurgers g).

(** ** [chefFunction]

    One iteration of the chef's loop has two atomic parts: the block under
    [unique_lock<mutex> lock(mtx)], then [cv_burger_ready.notify_all()]
    (followed by the sleep, which touches nothing shared). *)

Inductive chef_pc : Type :=
| ChefLocking      (* about to enter the locked block *)
| ChefNotifying    (* left the block, about to notify_all and sleep *)
| ChefReturned.    (* took the break: chefFunction has returned *)

(** The locked block: [if (burgersPrepared >= maxBurgers) break;
    burgersPrepared++;] *)
Definition chef_locked (g : globals) : globals * chef_pc :=
  if maxBurgers g <=? burgersPrepared g then (g, ChefReturned)
  else (set_burgersPrepared (incr (burgersPrepared g)) g, ChefNotifying).

(** ** [clientHandler] *)

Definition Order : string := "Order".
Definition Burger_Served : string := "Burger Served".
Definition No_more_burgers : string := "No more burgers".

(** What one call of [recv] gave: its return value and the buffer after
    it. *)
Record recv_result : Type := Recv {
  bytesReceived : Z;
  orderBuffer : string
}.

Inductive handler_pc : Type :=
| LoopTest     (* at the while condition *)
| Receiving    (* in recv, waiting for an order *)
| Waiting      (* in cv_burger_ready.wait(lock) *)
| Notified     (* woken by a notify_all, about to leave wait *)
| Closed.      (* left the loop: close(clientSocket), thread over *)

Record handler : Type := Handler {
  pc : handler_pc;
  ordersProcessed : Z    (* int, local to the thread *)
}.

Definition set_pc (p : handler_pc) (h : handler) : handler :=
  Handler p (ordersProcessed h).

(** [while (serverRunning && ordersProcessed < maxBurgers)]: enter the body
    (and block in [recv]) or leave the loop and close the socket. *)
Definition handler_test (g : globals) (h : handler) : handler :=
  if serverRunning g && (ordersProcessed h <? maxBurgers g)
  then set_pc Receiving h
  else set_pc Closed h.

(** What the body of the loop does once [recv] has returned [r]. *)
Record body_result : Type := Body {
  globals_after : globals;
  handler_after : handler;
  sent : list string;       (* the send calls on clientSocket, in order *)
  notified : bool           (* whether cv_burger_ready.notify_all() ran *)
}.

(** The part under [unique_lock<mutex> lock(mtx)] when the order is served:
    lines 154-164. *)
Definition serve_burger (g : globals) (h : handler) : body_result :=
  let g1 := set_burgersServed (incr (burgersServed g)) g in
  let h1 := Handler (pc h) (incr (ordersProcessed h)) in
  if maxBurgers g1 <=? burgersServed g1
  then Body (set_serverRunning false g1) (set_pc Closed h1)
            [Burger_Served; No_more_burgers] true
  else Body g1 (set_pc LoopTest h1) [Burger_Served] false.

(** The locked part of the body, lines 152-167. *)
Definition handler_locked (buf : string) (g : globals) (h : handler) : body_result :=
  if (strcmp buf Order =? 0) && (burgersServed g <? burgersPrepared g)
  then serve_burger g h
  else Body g (set_pc Waiting h) [] false.

(** The whole body, lines 140-167. *)
Definition handler_body (r : recv_result) (g : globals) (h : handler) : body_result :=
  if bytesReceived r <=? 0
  then Body g (set_pc Closed h) [] false
  else handler_locked (orderBuffer r) g h.

(** ** The threads together *)

(** A session: the handler thread and what has been sent on its socket. *)
Record client : Type := Client {
  thread : handler;
  wire : list string
}.

Definition wake (c : client) : client :=
  match pc (thread c) with
  | Waiting => Client (set_pc Notified (thread c)) (wire c)
  | _ => c
  end.

(** [cv_burger_ready.notify_all()] *)
Definition notify_all (cs : list client) : list client := wake <$> cs.

Inductive main_pc : Type :=
| MainTest       (* at while (serverRunning) *)
| MainAccept     (* in accept *)
| MainJoining.   (* left the accept loop *)

Record system : Type := System {
  shared : globals;
  chefs : list chef_pc;
  acceptor : main_pc;
  clients : list client
}.

Inductive action : Type :=
| ChefLock (i : nat)               (* chef i runs its locked block *)
| ChefNotify (i : nat)             (* chef i notifies and goes to sleep *)
| MainLoop                         (* main tests while (serverRunning) *)
| Accept (clientSocket : Z)        (* accept returns *)
| ClientTest (j : nat)             (* handler j tests its loop condition *)
| ClientRecv (j : nat) (r : recv_result)  (* recv returns, body runs *)
| ClientWake (j : nat)             (* handler j, notified, leaves wait *)
| ClientSpurious (j : nat).        (* handler j leaves wait unnotified *)

Definition step (a : action) (s : system) : option system :=
  match a with
  | ChefLock i =>
      match chefs s !! i with
      | Some ChefLocking =>
          let '(g, p) := chef_locked (shared s) in
          Some (System g (<[i := p]> (chefs s)) (acceptor s) (clients s))
      | _ => None
      end
  | ChefNotify i =>
      match chefs s !! i with
      | Some ChefNotifying =>
          Some (System (shared s) (<[i := ChefLocking]> (chefs s)) (acceptor s)
                       (notify_all (clients s)))
      | _ => None
      end
  | MainLoop =>
      match acceptor s with
      | MainTest =>
          Some (System (shared s) (chefs s)
                       (if serverRunning (shared s) then MainAccept else MainJoining)
                       (clients s))
      | _ => None
      end
  | Accept fd =>
      match acceptor s with
      | MainAccept =>
          Some (System (shared s) (chefs s) MainTest
                       (if 0 <=? fd
                        then clients s ++ [Client (Handler LoopTest 0) []]
                        else clients s))
      | _ => None
      end
  | ClientTest j =>
      match clients s !! j with
      | Some (Client (Handler LoopTest n) w) =>
          Some (System (shared s) (chefs s) (acceptor s)
                       (<[j := Client (handler_test (shared s) (Handler LoopTest n)) w]>
                          (clients s)))
      | _ => None
      end
  | ClientRecv j r =>
      match clients s !! j with
      | Some (Client (Handler Receiving n) w) =>
          let b := handler_body r (shared s) (Handler Receiving n) in
          let cs := <[j := Client (handler_after b) (w ++ sent b)]> (clients s) in
          Some (System (globals_after b) (chefs s) (acceptor s)
                       (if notified b then notify_all cs else cs))
      | _ => None
      end
  | ClientWake j =>
      match clients s !! j with
      | Some (Client (Handler Notified n) w) =>
          Some (System (shared s) (chefs s) (acceptor s)
                       (<[j := Client (Handler LoopTest n) w]> (clients s)))
      | _ => None
      end
  | ClientSpurious j =>
      match clients s !! j with
      | Some (Client (Handler Waiting n) w) =>
          Some (System (shared s) (chefs s) (acceptor s)
                       (<[j := Client (Handler LoopTest n) w]> (clients s)))
      | _ => None
      end
  end.

Fixpoint run (acts : list action) (s : system) : option system :=
  match acts with
  | [] => Some s
  | a :: rest =>
      match step a s with
      | Some s' => run rest s'
      | None => None
      end
  end.

Definition reachable (s0 s : system) : Prop := exists acts, run acts s0 = Some s.

(** ** Startup: [main] up to the accept loop *)

(** The state in which the threads start, for a quota and a number of
    chefs: the loop [for (i = 0; i < numChefs; ++i)] has created its chef
    threads, no client is connected. *)
Definition boot (mb nc : Z) : system :=
  System (set_config mb nc globals0) (replicate (Z.to_nat nc) ChefLocking) MainTest [].

Inductive startup : Type :=
| Exit (output : string) (status : Z)   (* main returned before any thread *)
| Serving (s : system).                 (* chefs created, accept loop entered *)

Definition usage (argv0 : string) : string :=
  ("Usage: " ++ argv0 ++ " <MaxBurgers> <NumChefs>")%string.

(** Lines 53-71; [argc] is the length of [argv]. *)
Definition main_start (argv : list string) : startup :=
  let argc := Z.of_nat (length argv) in
  if 1 <? argc then
    if argc =? 3
    then Serving (boot (atoi (nth 1 argv EmptyString)) (atoi (nth 2 argv EmptyString)))
    else Exit (usage (nth 0 argv EmptyString)) 1
  else Serving (boot (maxBurgers globals0) (numChefs globals0)).

(** ** The pool as the specification describes it

    [spec_tryProduce] and [spec_tryConsume] follow the words of the
    specification's contract for the shared pool (produced, consumed, quota,
    running); they are compared below with the locked blocks of the
    source. *)

Definition spec_tryProduce (g : globals) : globals * bool :=
  if burgersPrepared g <? maxBurgers g
  then (set_burgersPrepared (burgersPrepared g + 1) g, true)
  else (g, false).

Definition spec_tryConsume (g : globals) : globals * bool :=
  if serverRunning g && (burgersServed g <? burgersPrepared g)
  then
    let g1 := set_burgersServed (burgersServed g + 1) g in
    (if burgersServed g1 =? maxBurgers g1 then set_serverRunning false g1 else g1, true)
  else (g, false).

(** Whether a run of the loop body granted a burger: its first send is
    "Burger Served". *)
Definition granted (b : body_result) : bool :=
  match sent b with
  | m :: _ => String.eqb m Burger_Served
  | [] => false
  end.

(** The invariant of the pool. *)
Definition pool_inv (g : globals) : Prop :=
  0 <= burgersServed g <= burgersPrepared g /\
  burgersPrepared g <= maxBurgers g /\
  (serverRunning g = false <-> burgersServed g = maxBurgers g).

(** What a step of any thread can do to the globals. *)
Inductive shared_move (g : globals) : globals -> Prop :=
| move_none : shared_move g g
| move_prepare :
    burgersPrepared g < maxBurgers g ->
    shared_move g (set_burgersPrepared (incr (burgersPrepared g)) g)
| move_serve h :
    burgersServed g < burgersPrepared g ->
    shared_move g (globals_after (serve_burger g h)).

(** What is on a session's socket: burgers, then at most one closing
    message, after which the handler is over. *)
Definition wire_ok (c : client) : Prop :=
  Forall (eq Burger_Served) (wire c) \/
  (pc (thread c) = Closed /\
   exists served, wire c = served ++ [No_more_burgers] /\ Forall (eq Burger_Served) served).

(** ** Two executions

    Quota 3, one chef, one client: two burgers prepared, one served. *)
Definition demo_run : list action :=
  [ChefLock 0%nat; ChefNotify 0%nat; ChefLock 0%nat; MainLoop; Accept 4;
   ClientTest 0%nat; ClientRecv 0%nat (Recv 5 Order)].

Definition demo_state : system :=
  System (Globals 2 1 3 1 true) [ChefNotifying] MainTest
         [Client (Handler LoopTest 1) [Burger_Served]].

(** An execution with quota 1, one chef and two clients: client 0 orders
    before any burger is ready and waits; the chef prepares the burger;
    client 1 orders, is served the last burger and told the shop is closed,
    which wakes client 0; client 0 leaves its loop. *)
Definition closing_run : list action :=
  [MainLoop; Accept 4; MainLoop; Accept 5;
   ClientTest 0%nat; ClientRecv 0%nat (Recv 5 Order);
   ChefLock 0%nat;
   ClientTest 1%nat; ClientRecv 1%nat (Recv 5 Order)].

Definition closing_state : system :=
  System (Globals 1 1 1 1 false) [ChefNotifying] MainTest
         [Client (Handler Notified 0) [];
          Client (Handler Closed 1) [Burger_Served; No_more_burgers]].

(** ** The scheduler as a relation

    The same steps as [step], one constructor per action, for reasoning by
    cases. *)
Inductive step_rel (s : system) : action -> system -> Prop :=
| rel_chef_lock i :
    chefs s !! i = Some ChefLocking ->
    step_rel s (ChefLock i)
      (System (chef_locked (shared s)).1
              (<[i := (chef_locked (shared s)).2]> (chefs s)) (acceptor s) (clients s))
| rel_chef_notify i :
    chefs s !! i = Some ChefNotifying ->
    step_rel s (ChefNotify i)
      (System (shared s) (<[i := ChefLocking]> (chefs s)) (acceptor s)
              (notify_all (clients s)))
| rel_main_loop :
    acceptor s = MainTest ->
    step_rel s MainLoop
      (System (shared s) (chefs s)
              (if serverRunning (shared s) then MainAccept else MainJoining) (clients s))
| rel_accept fd :
    acceptor s = MainAccept ->
    step_rel s (Accept fd)
      (System (shared s) (chefs s) MainTest
              (if 0 <=? fd then clients s ++ [Client (Handler LoopTest 0) []]
               else clients s))
| rel_client_test j n w :
    clients s !! j = Some (Client (Handler LoopTest n) w) ->
    step_rel s (ClientTest j)
      (System (shared s) (chefs s) (acceptor s)
              (<[j := Client (handler_test (shared s) (Handler LoopTest n)) w]> (clients s)))
| rel_client_recv j r n w :
    clients s !! j = Some (Client (Handler Receiving n) w) ->
    step_rel s (ClientRecv j r)
      (System (globals_after (handler_body r (shared s) (Handler Receiving n)))
              (chefs s) (acceptor s)
              (let b := handler_body r (shared s) (Handler Receiving n) in
               let cs := <[j := Client (handler_after b) (w ++ sent b)]> (clients s) in
               if notified b then notify_all cs else cs))
| rel_client_wake j n w :
    clients s !! j = Some (Client (Handler Notified n) w) ->
    step_rel s (ClientWake j)
      (System (shared s) (chefs s) (acceptor s)
              (<[j := Client (Handler LoopTest n) w]> (clients s)))
| rel_client_spurious j n w :
    clients s !! j = Some (Client (Handler Waiting n) w) ->
    step_rel s (ClientSpurious j)
      (System (shared s) (chefs s) (acceptor s)
              (<[j := Client (Handler LoopTest n) w]> (clients s))).

(** ** The end of [main], lines 86-98

    Once out of the accept loop main joins every client thread and every
    chef thread: it gets past the joins when all of them are over. *)
Definition handler_over (c : client) : bool :=
  match pc (thread c) with Closed => true | _ => false end.

Definition chef_over (p : chef_pc) : bool :=
  match p with ChefReturned => true | _ => false end.

Definition main_joined (s : system) : bool :=
  match acceptor s with
  | MainJoining => forallb handler_over (clients s) && forallb chef_over (chefs s)
  | _ => false
  end.

(** ** Counting what was sent *)

(** The number of "Burger Served" messages in what a socket carried. *)
Fixpoint count_burgers (w : list string) : Z :=
  match w with
  | [] => 0
  | m :: rest => (if String.eqb m Burger_Served then 1 else 0) + count_burgers rest
  end.

(** The same over all sessions. *)
Fixpoint burgers_sent (cs : list client) : Z :=
  match cs with
  | [] => 0
  | c :: rest => count_burgers (wire c) + burgers_sent rest
  end.

(** What every socket has carried, session by session. *)
Definition wires (s : system) : list (list string) := wire <$> clients s.

(** ** A schedule that sells out

    The one chef prepares [n] burgers, a client connects and sends [n]
    orders one after the other. *)
Fixpoint prepare_all (n : nat) : list action :=
  match n with
  | O => []
  | S k => ChefLock 0%nat :: ChefNotify 0%nat :: prepare_all k
  end.

Fixpoint order_all (n : nat) : list action :=
  match n with
  | O => []
  | S k => ClientTest 0%nat :: ClientRecv 0%nat (Recv 5 Order) :: order_all k
  end.

Definition sell_out (n : nat) : list action :=
  prepare_all n ++ [MainLoop; Accept 4] ++ order_all n.

(** Every handler has processed as many orders as its socket carries
    burgers. *)
Definition tallied (c : client) : Prop :=
  ordersProcessed (thread c) = count_burgers (wire c).

Definition accounted (s : system) : Prop :=
  typed (shared s) /\
  burgersServed (shared s) <= burgersPrepared (shared s) /\
  burgersServed (shared s) = burgers_sent (clients s) /\
  Forall tallied (clients s).

(** A closed shop: the pool invariant holds and serverRunning is false. *)
Definition closed_shop (g : globals) : Prop :=
  typed g /\ pool_inv g /\ serverRunning g = false.

(** Who has been told that the shop is closed: nobody while serverRunning
    is true, one session exactly, as its last message, once it is false. *)
Definition told (s : system) : Prop :=
  if serverRunning (shared s)
  then Forall (Forall (eq Burger_Served)) (wires s)
  else exists j w,
         wires s !! j = Some (w ++ [No_more_burgers]) /\
         Forall (eq Burger_Served) w /\
         forall k w', k <> j -> wires s !! k = Some w' -> Forall (eq Burger_Served) w'.

(** An execution with quota 1 in which client 0 is already in recv when
    client 1 is served the only burger; the order of client 0 arrives
    afterwards. *)
Definition late_run : list action :=
  [MainLoop; Accept 4; MainLoop; Accept 5; ClientTest 0%nat;
   ChefLock 0%nat; ChefNotify 0%nat;
   ClientTest 1%nat; ClientRecv 1%nat (Recv 5 Order);
   ClientRecv 0%nat (Recv 5 Order)].

Definition late_state : system :=
  System (Globals 1 1 1 1 false) [ChefLocking] MainTest
         [Client (Handler Waiting 0) [];
          Client (Handler Closed 1) [Burger_Served; No_more_burgers]].

(** * The client, [client.cpp] *)

Module Client.

(** [strncmp]: as [strcmp], over at most [n] bytes. *)
Fixpoint strncmp (a b : string) (n : nat) {struct n} : Z :=
  match n with
  | O => 0
  | S k =>
      match a, b with
      | EmptyString, EmptyString => 0
      | EmptyString, String d _ => 0 - code d
      | String c _, EmptyString => code c - 0
      | String c a', String d b' =>
          if Ascii.eqb c d
          then (if Ascii.eqb c NUL then 0 else strncmp a' b' k)
          else code c - code d
      end
  end.

(** [std::stoi] in base 10: leading white space, an optional sign, digits.
    It throws when there is no digit to convert (invalid_argument) or when
    the value does not fit an int (out_of_range): [None]. *)
Definition stoi (s : string) : option Z :=
  let t := skip_space s in
  let '(negative, u) :=
    match t with
    | String "-"%char r => (true, r)
    | String "+"%char r => (false, r)
    | _ => (false, t)
    end in
  match u with
  | EmptyString => None
  | String c _ =>
      match digit_of c with
      | None => None
      | Some _ =>
          let v := if negative then - atoi_digits 0 u else atoi_digits 0 u in
          if (INT_MIN <=? v) && (v <=? INT_MAX) then Some v else None
      end
  end.

(** What the socket gives in one iteration of the order loop: the return
    value of send, then (when send succeeded) the return value of read and
    the buffer after it. *)
Record exchange : Type := Exchange {
  sendResult : Z;
  bytesReceived : Z;
  buffer : string
}.

(** How the order loop was left. *)
Inductive ending : Type :=
| OrdersDone     (* i reached maxOrders *)
| SendFailed     (* "Failed to send order. Exiting." *)
| ShopClosed     (* "No more burgers available. Exiting." *)
| NoResponse.    (* "No response from server or error occurred. Exiting." *)

(** What the client printed: how many "Ordered burger" lines, how many
    "Finished eating burger" lines, and how it left the loop. *)
Record tally : Type := Tally {
  ordered : Z;
  eaten : Z;
  ended : ending
}.

(** The loop [for (int i = 0; i < maxOrders; ++i)], lines 80-110; [todo]
    is the number of iterations left, [talk i] what the socket does in
    iteration [i]. *)
Fixpoint order_loop (talk : nat -> exchange) (todo : nat) (i : nat)
    (ordered eaten : Z) : tally :=
  match todo with
  | O => Tally ordered eaten OrdersDone
  | S k =>
      let e := talk i in
      if sendResult e <? 0 then Tally ordered eaten SendFailed
      else if 0 <? bytesReceived e then
        if strncmp (buffer e) Burger_Served 13 =? 0
        then order_loop talk k (S i) (ordered + 1) (eaten + 1)
        else if strncmp (buffer e) No_more_burgers 15 =? 0
        then Tally (ordered + 1) eaten ShopClosed
        else order_loop talk k (S i) (ordered + 1) eaten
      else Tally (ordered + 1) eaten NoResponse
  end.

(** The system calls of main before the loop, and the socket. *)
Record network : Type := Network {
  socket_fd : Z;               (* socket(AF_INET, SOCK_STREAM, 0) *)
  inet_pton : string -> Z;     (* inet_pton(AF_INET, serverIP, ...) *)
  connect : Z;                 (* connect(sock, ...) *)
  talk : nat -> exchange
}.

Inductive outcome : Type :=
| Usage (line : string)        (* wrong number of arguments: return 1 *)
| Thrown                       (* stoi threw, nothing catches it *)
| SocketFailed                 (* return 1 *)
| BadAddress                   (* return 1 *)
| ConnectionFailed             (* return 1 *)
| Finished (t : tally).        (* the loop ran, close(sock), return 0 *)

Definition usage (argv0 : string) : string :=
  ("Usage: " ++ argv0 ++ " <ServerIP> <Port> <MaxOrders>")%string.

(** After the arguments: lines 52-112 with the server address and the
    number of orders. *)
Definition session (serverIP : string) (maxOrders : Z) (net : network) : outcome :=
  if socket_fd net <? 0 then SocketFailed
  else if inet_pton net serverIP <=? 0 then BadAddress
  else if connect net <? 0 then ConnectionFailed
  else Finished (order_loop (talk net) (Z.to_nat maxOrders) 0 0 0).

(** [main], lines 32-112. *)
Definition main (argv : list string) (net : network) : outcome :=
  let argc := Z.of_nat (length argv) in
  if argc =? 4 then
    match stoi (nth 2 argv EmptyString) with
    | None => Thrown
    | Some _ =>
        match stoi (nth 3 argv EmptyString) with
        | None => Thrown
        | Some maxOrders => session (nth 1 argv EmptyString) maxOrders net
        end
    end
  else if negb (argc =? 1) then Usage (usage (nth 0 argv EmptyString))
  else session "127.0.0.1" 10 net.

End Client.

(** The server answering one client that behaves: every order is answered
    "Burger Served" in a read of its own. *)
Definition always_served (i : nat) : Client.exchange :=
  Client.Exchange 5 13 Burger_Served.

(** * Properties *)

(** ** Integers *)

Lemma wrap_int_small x : is_int x -> wrap_int x = x.
Proof.
  unfold is_int, INT_MIN, INT_MAX, wrap_int. intros Hx.
  rewrite Z.mod_small by lia. lia.
Qed.

Lemma wrap_int_is_int x : is_int (wrap_int x).
Proof.
  unfold is_int, INT_MIN, INT_MAX, wrap_int.
  pose proof (Z.mod_pos_bound (x + 2147483648) 4294967296). lia.
Qed.

(** An increment below a value of type [int] does not wrap. *)
Lemma incr_below x y : is_int x -> is_int y -> x < y -> incr x = x + 1.
Proof.
  unfold incr. intros Hx Hy Hlt. apply wrap_int_small.
  unfold is_int, INT_MIN, INT_MAX in *. lia.
Qed.

Lemma atoi_is_int s : is_int (atoi s).
Proof.
  unfold atoi. destruct (skip_space s) as [|c r]; [apply wrap_int_is_int|].
  destruct c as [[] [] [] [] [] [] [] []]; apply wrap_int_is_int.
Qed.

(** ** Strings *)

Lemma code_zero c : code c = 0 <-> c = NUL.
Proof.
  unfold code, NUL. split.
  - intros H. assert (N_of_ascii c = 0%N) as H0 by lia.
    rewrite <- (ascii_N_embedding c), H0. reflexivity.
  - intros ->. reflexivity.
Qed.

Lemma code_inj c d : code c = code d -> c = d.
Proof.
  unfold code. intros H. assert (N_of_ascii c = N_of_ascii d) as H0 by lia.
  rewrite <- (ascii_N_embedding c), <- (ascii_N_embedding d), H0. reflexivity.
Qed.

(** [strcmp] answers 0 exactly when the two buffers hold the same C
    string. *)
Lemma strcmp_zero a : forall b, strcmp a b = 0 <-> c_string a = c_string b.
Proof.
  induction a as [|c a IH]; intros [|d b]; simpl.
  - tauto.
  - destruct (Ascii.eqb_spec d NUL) as [->|Hd].
    + split; reflexivity.
    + split; [|discriminate]. intros H. exfalso. apply Hd, code_zero. lia.
  - destruct (Ascii.eqb_spec c NUL) as [->|Hc].
    + split; reflexivity.
    + split; [|discriminate]. intros H. exfalso. apply Hc, code_zero. lia.
  - destruct (Ascii.eqb_spec c d) as [->|Hcd].
    + destruct (Ascii.eqb_spec d NUL) as [->|Hd]; [tauto|].
      rewrite IH. split; [congruence|]. intros H. injection H. auto.
    + split.
      * intros H. exfalso. apply Hcd, code_inj. lia.
      * destruct (Ascii.eqb_spec c NUL) as [->|Hc];
          destruct (Ascii.eqb_spec d NUL) as [->|Hd]; congruence.
  Qed.

Lemma c_string_Order : c_string Order = Order.
Proof. reflexivity. Qed.

Lemma strcmp_Order buf : (strcmp buf Order =? 0) = true <-> c_string buf = Order.
Proof. rewrite Z.eqb_eq, strcmp_zero, c_string_Order. tauto. Qed.

Lemma strcmp_not_Order buf : c_string buf <> Order -> (strcmp buf Order =? 0) = false.
Proof.
  intros H. destruct (strcmp buf Order =? 0) eqn:E; [|reflexivity].
  apply strcmp_Order in E. contradiction.
Qed.

(** ** The locked blocks on the globals *)

Lemma serve_burger_globals g h :
  globals_after (serve_burger g h) =
  let g1 := set_burgersServed (incr (burgersServed g)) g in
  if maxBurgers g <=? incr (burgersServed g) then set_serverRunning false g1 else g1.
Proof. unfold serve_burger. simpl. destruct (_ <=? _); reflexivity. Qed.

Lemma handler_body_move r g h : shared_move g (globals_after (handler_body r g h)).
Proof.
  unfold handler_body, handler_locked.
  destruct (bytesReceived r <=? 0); [constructor|].
  destruct (strcmp _ _ =? 0); [|constructor].
  destruct (burgersServed g <? burgersPrepared g) eqn:E; [|constructor].
  simpl. apply move_serve. lia.
Qed.

Lemma chef_locked_move g : shared_move g (chef_locked g).1.
Proof.
  unfold chef_locked. destruct (maxBurgers g <=? burgersPrepared g) eqn:E; simpl.
  - constructor.
  - apply move_prepare. lia.
Qed.

(** Every step of the scheduler moves the globals in one of the three
    ways. *)
Lemma step_shared a s s' : step a s = Some s' -> shared_move (shared s) (shared s').
Proof.
  destruct a; simpl; intros H; repeat case_match; simplify_eq; simpl;
    try constructor; try apply handler_body_move.
  match goal with E : chef_locked _ = _ |- _ =>
    pose proof (chef_locked_move (shared s)) as M; rewrite E in M; exact M end.
Qed.

Lemma shared_move_typed g g' : typed g -> shared_move g g' -> typed g'.
Proof.
  intros (Hp & Hs & Hm) M. destruct M as [|Hlt|h Hlt].
  - exact (conj Hp (conj Hs Hm)).
  - exact (conj (wrap_int_is_int _) (conj Hs Hm)).
  - rewrite serve_burger_globals. simpl.
    destruct (_ <=? _); exact (conj Hp (conj (wrap_int_is_int _) Hm)).
Qed.

Lemma shared_move_config g g' :
  shared_move g g' -> maxBurgers g' = maxBurgers g /\ numChefs g' = numChefs g.
Proof.
  intros [|Hlt|h Hlt]; [tauto|simpl; tauto|].
  rewrite serve_burger_globals. simpl. destruct (_ <=? _); simpl; tauto.
Qed.

Lemma shared_move_inv g g' : typed g -> pool_inv g -> shared_move g g' -> pool_inv g'.
Proof.
  intros (Hp & Hs & Hm) (Hb & Hq & Hr) M. destruct M as [|Hlt|h Hlt].
  - repeat split; tauto || lia.
  - rewrite (incr_below _ _ Hp Hm Hlt). unfold pool_inv; simpl.
    split; [lia|]. split; [lia|]. exact Hr.
  - rewrite serve_burger_globals, (incr_below _ _ Hs Hp Hlt). simpl.
    destruct (maxBurgers g <=? burgersServed g + 1) eqn:E; unfold pool_inv; simpl.
    + split; [lia|]. split; [lia|]. split; [lia|reflexivity].
    + split; [lia|]. split; [lia|]. split; [|lia].
      intros Hf. apply Hr in Hf. lia.
Qed.

Lemma shared_move_mono g g' :
  typed g -> shared_move g g' ->
  burgersPrepared g <= burgersPrepared g' /\
  burgersServed g <= burgersServed g' /\
  (serverRunning g = false -> serverRunning g' = false).
Proof.
  intros (Hp & Hs & Hm) M. destruct M as [|Hlt|h Hlt].
  - split; [lia|]. split; [lia|tauto].
  - rewrite (incr_below _ _ Hp Hm Hlt). simpl. split; [lia|]. split; [lia|tauto].
  - rewrite serve_burger_globals, (incr_below _ _ Hs Hp Hlt). simpl.
    destruct (_ <=? _); simpl; (split; [lia|]); (split; [lia|tauto]).
Qed.

Lemma shared_move_quota g g' :
  typed g -> burgersPrepared g <= maxBurgers g -> shared_move g g' ->
  burgersPrepared g' <= maxBurgers g'.
Proof.
  intros (Hp & Hs & Hm) Hq M. destruct M as [|Hlt|h Hlt].
  - exact Hq.
  - rewrite (incr_below _ _ Hp Hm Hlt). simpl. lia.
  - rewrite serve_burger_globals. simpl. destruct (_ <=? _); simpl; exact Hq.
Qed.

(** Induction over an execution: a property of the globals that every
    move keeps holds after any run. *)
Lemma run_shared (P : globals -> Prop) :
  (forall g g', typed g -> P g -> shared_move g g' -> P g') ->
  forall acts s s', typed (shared s) -> P (shared s) -> run acts s = Some s' ->
    typed (shared s') /\ P (shared s').
Proof.
  intros HP acts. induction acts as [|a acts IH]; simpl; intros s s' Ht Hs Hrun.
  - injection Hrun as <-. tauto.
  - destruct (step a s) as [s1|] eqn:E; [|discriminate].
    apply step_shared in E.
    apply (IH s1 s'); [eapply shared_move_typed|eapply HP|]; eassumption.
Qed.

Lemma boot_typed mb nc : is_int mb -> typed (shared (boot mb nc)).
Proof. unfold typed, is_int, INT_MIN, INT_MAX; simpl. lia. Qed.

Lemma boot_inv mb nc : 0 < mb -> pool_inv (shared (boot mb nc)).
Proof.
  unfold pool_inv; simpl. intros H. split; [lia|]. split; [lia|].
  split; [discriminate|lia].
Qed.

Lemma reachable_inv mb nc s :
  0 < mb -> is_int mb -> reachable (boot mb nc) s ->
  typed (shared s) /\ pool_inv (shared s).
Proof.
  intros Hpos Hint [acts Hrun].
  apply (run_shared pool_inv shared_move_inv acts (boot mb nc) s);
    [apply boot_typed|apply boot_inv|]; assumption.
Qed.

(** A chef that has returned takes no further step and stays returned. *)
Lemma step_chef_returned a s s' i :
  chefs s !! i = Some ChefReturned -> step a s = Some s' ->
  chefs s' !! i = Some ChefReturned.
Proof.
  intros Hi. destruct a as [k|k| | | | | |]; simpl; intros H;
    repeat case_match; simplify_eq; simpl; try assumption.
  - destruct (decide (k = i)) as [->|Hne]; [congruence|].
    rewrite list_lookup_insert_ne; assumption.
  - destruct (decide (k = i)) as [->|Hne]; [congruence|].
    rewrite list_lookup_insert_ne; assumption.
Qed.

Lemma run_chef_returned acts : forall s s' i,
  chefs s !! i = Some ChefReturned -> run acts s = Some s' ->
  chefs s' !! i = Some ChefReturned.
Proof.
  induction acts as [|a acts IH]; simpl; intros s s' i Hi Hrun.
  - congruence.
  - destruct (step a s) as [s1|] eqn:E; [|discriminate].
    eapply IH; [eapply step_chef_returned|]; eassumption.
Qed.

(** ** Invariants of the counters *)

(** C1. In every state reachable from the start of the server with a
    positive quota, whatever chefs and handlers have done,
    0 <= burgersServed <= burgersPrepared <= maxBurgers, and maxBurgers is
    still the quota the server was started with. *)
Theorem counters_within_quota mb nc s :
  0 < mb -> is_int mb -> reachable (boot mb nc) s ->
  maxBurgers (shared s) = mb /\
  0 <= burgersServed (shared s) /\
  burgersServed (shared s) <= burgersPrepared (shared s) /\
  burgersPrepared (shared s) <= maxBurgers (shared s).
Proof.
  intros Hpos Hint Hreach.
  destruct (reachable_inv mb nc s Hpos Hint Hreach) as (_ & (Hb & Hq & _)).
  destruct Hreach as [acts Hrun].
  assert (typed (shared s) /\ maxBurgers (shared s) = mb) as [_ Hmb].
  { apply (run_shared (fun g => maxBurgers g = mb)) with acts (boot mb nc);
      [|apply boot_typed; assumption|reflexivity|assumption].
    intros g g' _ Hg M. apply shared_move_config in M. destruct M. congruence. }
  split; [assumption|]. lia.
Qed.

Lemma counters_within_quota_witness :
  maxBurgers (shared demo_state) = 3 /\
  0 <= burgersServed (shared demo_state) /\
  burgersServed (shared demo_state) <= burgersPrepared (shared demo_state) /\
  burgersPrepared (shared demo_state) <= maxBurgers (shared demo_state).
Proof.
  apply (counters_within_quota 3 1 demo_state).
  - lia.
  - unfold is_int, INT_MIN, INT_MAX. lia.
  - exists demo_run. reflexivity.
Defined.

(** C2. In every state reachable from the start of the server with a
    positive quota (serverRunning starts true), serverRunning is false if
    and only if burgersServed equals maxBurgers. *)
Theorem running_false_iff_sold_out mb nc s :
  0 < mb -> is_int mb -> reachable (boot mb nc) s ->
  (serverRunning (shared s) = false <-> burgersServed (shared s) = maxBurgers (shared s)).
Proof.
  intros Hpos Hint Hreach.
  destruct (reachable_inv mb nc s Hpos Hint Hreach) as (_ & (_ & _ & Hr)).
  exact Hr.
Qed.

Lemma running_false_iff_sold_out_witness :
  serverRunning (shared closing_state) = false <->
  burgersServed (shared closing_state) = maxBurgers (shared closing_state).
Proof.
  apply (running_false_iff_sold_out 1 1 closing_state).
  - lia.
  - unfold is_int, INT_MIN, INT_MAX. lia.
  - exists closing_run. reflexivity.
Defined.

(** C9. Along every execution, from any state whose globals hold values
    of their C types: burgersPrepared never decreases, burgersServed never
    decreases, and serverRunning, once false, is false ever after. *)
Theorem counters_monotone s s' :
  typed (shared s) -> reachable s s' ->
  burgersPrepared (shared s) <= burgersPrepared (shared s') /\
  burgersServed (shared s) <= burgersServed (shared s') /\
  (serverRunning (shared s) = false -> serverRunning (shared s') = false).
Proof.
  intros Ht [acts Hrun].
  pose (P := fun g =>
    burgersPrepared (shared s) <= burgersPrepared g /\
    burgersServed (shared s) <= burgersServed g /\
    (serverRunning (shared s) = false -> serverRunning g = false)).
  apply (run_shared P) with acts s; try assumption.
  - intros g g' Hg (H1 & H2 & H3) M.
    destruct (shared_move_mono g g' Hg M) as (M1 & M2 & M3).
    unfold P. split; [lia|]. split; [lia|auto].
  - unfold P. split; [lia|]. split; [lia|auto].
Qed.

Lemma counters_monotone_witness :
  burgersPrepared (shared (boot 3 1)) <= burgersPrepared (shared demo_state) /\
  burgersServed (shared (boot 3 1)) <= burgersServed (shared demo_state) /\
  (serverRunning (shared (boot 3 1)) = false -> serverRunning (shared demo_state) = false).
Proof.
  apply (counters_monotone (boot 3 1) demo_state).
  - unfold typed, is_int, INT_MIN, INT_MAX. simpl. lia.
  - exists demo_run. reflexivity.
Defined.

(** ** The chef *)

(** C4. For every state of the globals, the chef's locked block is
    tryProduce: below the quota it adds exactly one to burgersPrepared and
    goes on; at or above the quota it changes nothing and the chef leaves
    its loop for good.  Hence, with any number of chefs and whatever the
    other threads do, burgersPrepared never exceeds maxBurgers once it is
    within it. *)
Theorem chef_locked_is_tryProduce g :
  typed g ->
  (burgersPrepared g < maxBurgers g ->
     chef_locked g = (set_burgersPrepared (burgersPrepared g + 1) g, ChefNotifying)) /\
  (maxBurgers g <= burgersPrepared g -> chef_locked g = (g, ChefReturned)) /\
  chef_locked g =
    ((spec_tryProduce g).1, if (spec_tryProduce g).2 then ChefNotifying else ChefReturned) /\
  (forall s i acts s', chefs s !! i = Some ChefReturned -> run acts s = Some s' ->
     chefs s' !! i = Some ChefReturned) /\
  (forall s acts s', shared s = g -> burgersPrepared g <= maxBurgers g ->
     run acts s = Some s' -> burgersPrepared (shared s') <= maxBurgers (shared s')).
Proof.
  intros Ht. pose proof Ht as (Hp & Hs & Hm).
  assert (burgersPrepared g < maxBurgers g ->
          chef_locked g = (set_burgersPrepared (burgersPrepared g + 1) g, ChefNotifying)) as Hlt.
  { intros H. unfold chef_locked.
    destruct (maxBurgers g <=? burgersPrepared g) eqn:E; [lia|].
    rewrite (incr_below _ _ Hp Hm H). reflexivity. }
  assert (maxBurgers g <= burgersPrepared g -> chef_locked g = (g, ChefReturned)) as Hge.
  { intros H. unfold chef_locked.
    destruct (maxBurgers g <=? burgersPrepared g) eqn:E; [reflexivity|lia]. }
  split; [exact Hlt|]. split; [exact Hge|]. split; [|split].
  - unfold spec_tryProduce.
    destruct (burgersPrepared g <? maxBurgers g) eqn:E; simpl.
    + apply Hlt. lia.
    + apply Hge. lia.
  - intros s i acts s' Hi Hrun. eapply run_chef_returned; eassumption.
  - intros s acts s' <- Hq Hrun.
    apply (run_shared (fun g => burgersPrepared g <= maxBurgers g)) with acts s;
      try assumption.
    intros g g' Hg Hle M. eapply shared_move_quota; eassumption.
Qed.

Lemma chef_locked_is_tryProduce_witness :
  chef_locked (Globals 2 1 3 1 true) = (Globals 3 1 3 1 true, ChefNotifying) /\
  chef_locked (Globals 3 1 3 1 true) = (Globals 3 1 3 1 true, ChefReturned) /\
  chefs (System (Globals 3 1 3 1 true) [ChefReturned] MainAccept []) !! 0%nat
    = Some ChefReturned /\
  burgersPrepared (shared demo_state) <= maxBurgers (shared demo_state).
Proof.
  assert (forall p q, 0 <= p <= 3 -> 0 <= q <= 3 -> typed (Globals p q 3 1 true)) as Ht.
  { intros p q Hp Hq. unfold typed, is_int, INT_MIN, INT_MAX. simpl. lia. }
  split; [|split; [|split]].
  - apply (proj1 (chef_locked_is_tryProduce (Globals 2 1 3 1 true)
                    (Ht 2 1 ltac:(lia) ltac:(lia)))).
    simpl. lia.
  - apply (proj1 (proj2 (chef_locked_is_tryProduce (Globals 3 1 3 1 true)
                           (Ht 3 1 ltac:(lia) ltac:(lia))))).
    simpl. lia.
  - apply (proj1 (proj2 (proj2 (proj2 (chef_locked_is_tryProduce (Globals 3 1 3 1 true)
                                         (Ht 3 1 ltac:(lia) ltac:(lia))))))
             (System (Globals 3 1 3 1 true) [ChefReturned] MainTest []) 0%nat [MainLoop]).
    + reflexivity.
    + reflexivity.
  - apply (proj2 (proj2 (proj2 (proj2 (chef_locked_is_tryProduce (Globals 0 0 3 1 true)
                                         (Ht 0 0 ltac:(lia) ltac:(lia))))))
             (boot 3 1) demo_run).
    + reflexivity.
    + simpl. lia.
    + reflexivity.
Defined.

(** ** The handler on one request *)

Lemma handler_locked_served buf g h :
  c_string buf = Order -> burgersServed g < burgersPrepared g ->
  handler_locked buf g h = serve_burger g h.
Proof.
  intros Hbuf Hlt. unfold handler_locked.
  apply strcmp_Order in Hbuf. rewrite Hbuf.
  destruct (burgersServed g <? burgersPrepared g) eqn:E; [reflexivity|lia].
Qed.

Lemma handler_locked_waits buf g h :
  c_string buf <> Order \/ burgersPrepared g <= burgersServed g ->
  handler_locked buf g h = Body g (set_pc Waiting h) [] false.
Proof.
  intros H. unfold handler_locked. destruct H as [H|H].
  - rewrite (strcmp_not_Order _ H). reflexivity.
  - destruct (burgersServed g <? burgersPrepared g) eqn:E; [lia|].
    rewrite andb_false_r. reflexivity.
Qed.

Lemma granted_serve_burger g h : granted (serve_burger g h) = true.
Proof. unfold serve_burger. destruct (_ <=? _); reflexivity. Qed.

(** What the agreement of the locked block with tryConsume needs of the
    globals: a closed shop has no burger left, and a burger that is left is
    within the quota. *)
Lemma order_attempt_agrees buf g h :
  typed g ->
  (serverRunning g = false -> burgersPrepared g <= burgersServed g) ->
  (burgersServed g < burgersPrepared g -> burgersPrepared g <= maxBurgers g) ->
  c_string buf = Order ->
  (globals_after (handler_locked buf g h), granted (handler_locked buf g h))
    = spec_tryConsume g /\
  (serverRunning g = true -> burgersServed g < burgersPrepared g ->
     burgersServed (globals_after (handler_locked buf g h)) = burgersServed g + 1 /\
     burgersPrepared (globals_after (handler_locked buf g h)) = burgersPrepared g /\
     (serverRunning (globals_after (handler_locked buf g h)) = false <->
        burgersServed g + 1 = maxBurgers g) /\
     hd_error (sent (handler_locked buf g h)) = Some Burger_Served) /\
  (serverRunning g = false \/ burgersPrepared g <= burgersServed g ->
     globals_after (handler_locked buf g h) = g /\ sent (handler_locked buf g h) = []).
Proof.
  intros (Hp & Hs & Hm) Hclosed Hq Hbuf.
  assert (burgersServed g < burgersPrepared g ->
          handler_locked buf g h = serve_burger g h /\
          incr (burgersServed g) = burgersServed g + 1) as Hserve.
  { intros Hlt. split; [apply handler_locked_served; assumption|].
    apply (incr_below _ _ Hs Hp Hlt). }
  split; [|split].
  - unfold spec_tryConsume.
    destruct (burgersServed g <? burgersPrepared g) eqn:E.
    + destruct (Hserve ltac:(lia)) as [-> Hincr]. specialize (Hq ltac:(lia)).
      destruct (serverRunning g) eqn:Hrun; [|specialize (Hclosed eq_refl); lia].
      rewrite serve_burger_globals, granted_serve_burger, Hincr. simpl.
      destruct (maxBurgers g <=? burgersServed g + 1) eqn:E1;
        destruct (burgersServed g + 1 =? maxBurgers g) eqn:E2; try reflexivity; lia.
    + rewrite handler_locked_waits by (right; lia).
      rewrite andb_false_r. reflexivity.
  - intros Hrun Hlt. destruct (Hserve Hlt) as [-> Hincr]. specialize (Hq Hlt).
    rewrite serve_burger_globals, Hincr. unfold serve_burger. simpl.
    rewrite Hincr.
    destruct (maxBurgers g <=? burgersServed g + 1) eqn:E; simpl.
    + repeat split; try reflexivity; lia.
    + repeat split; try reflexivity; try lia. congruence.
  - intros Hno. rewrite handler_locked_waits; [split; reflexivity|].
    right. destruct Hno as [Hf|Hle]; [auto|exact Hle].
Qed.

(** These two facts hold in every state the server reaches, whatever the
    quota it was started with. *)
Lemma reachable_attempt_inv mb nc s :
  is_int mb -> reachable (boot mb nc) s ->
  typed (shared s) /\
  (serverRunning (shared s) = false ->
     burgersPrepared (shared s) <= burgersServed (shared s)) /\
  (burgersServed (shared s) < burgersPrepared (shared s) ->
     burgersPrepared (shared s) <= maxBurgers (shared s)).
Proof.
  intros Hmb [acts Hrun].
  pose (J := fun g =>
    burgersServed g <= burgersPrepared g /\
    (burgersServed g < burgersPrepared g -> burgersPrepared g <= maxBurgers g) /\
    (serverRunning g = false ->
       maxBurgers g <= burgersServed g /\ burgersPrepared g <= maxBurgers g)).
  assert (typed (shared s) /\ J (shared s)) as (Ht & Hle & Hq & Hclosed).
  { apply (run_shared J) with acts (boot mb nc);
      [|apply boot_typed, Hmb| |exact Hrun].
    - intros g g' (Hp & Hs & Hm) (Hle & Hq & Hclosed) M. unfold J.
      destruct M as [|Hlt|h Hlt].
      + split; [exact Hle|]. split; [exact Hq|exact Hclosed].
      + rewrite (incr_below _ _ Hp Hm Hlt). simpl.
        split; [lia|]. split; [lia|]. intros Hf. specialize (Hclosed Hf). lia.
      + specialize (Hq Hlt).
        rewrite serve_burger_globals, (incr_below _ _ Hs Hp Hlt). simpl.
        destruct (maxBurgers g <=? burgersServed g + 1) eqn:E; simpl.
        * split; [lia|]. split; [lia|]. intros _. lia.
        * split; [lia|]. split; [lia|]. intros Hf. specialize (Hclosed Hf). lia.
    - unfold J. simpl. split; [lia|]. split; [lia|]. discriminate. }
  split; [exact Ht|]. split; [|exact Hq].
  intros Hf. specialize (Hclosed Hf). lia.
Qed.

(** C3. In every state of the server (every state reachable from its
    start, whatever int the quota is), one attempt on an "Order" request
    under the lock is tryConsume: with serverRunning true and
    burgersPrepared > burgersServed it adds exactly one to burgersServed,
    clears serverRunning exactly when the new count equals maxBurgers, and
    answers "Burger Served"; otherwise it sends nothing and leaves
    burgersPrepared, burgersServed and serverRunning as they are. *)
Theorem order_attempt_is_tryConsume mb nc s buf h :
  is_int mb -> reachable (boot mb nc) s -> c_string buf = Order ->
  (globals_after (handler_locked buf (shared s) h),
   granted (handler_locked buf (shared s) h))
    = spec_tryConsume (shared s) /\
  (serverRunning (shared s) = true ->
   burgersServed (shared s) < burgersPrepared (shared s) ->
     burgersServed (globals_after (handler_locked buf (shared s) h))
       = burgersServed (shared s) + 1 /\
     burgersPrepared (globals_after (handler_locked buf (shared s) h))
       = burgersPrepared (shared s) /\
     (serverRunning (globals_after (handler_locked buf (shared s) h)) = false <->
        burgersServed (shared s) + 1 = maxBurgers (shared s)) /\
     hd_error (sent (handler_locked buf (shared s) h)) = Some Burger_Served) /\
  (serverRunning (shared s) = false \/
   burgersPrepared (shared s) <= burgersServed (shared s) ->
     globals_after (handler_locked buf (shared s) h) = shared s /\
     sent (handler_locked buf (shared s) h) = []).
Proof.
  intros Hmb Hreach Hbuf.
  destruct (reachable_attempt_inv mb nc s Hmb Hreach) as (Ht & Hclosed & Hq).
  apply order_attempt_agrees; assumption.
Qed.

Lemma order_attempt_is_tryConsume_witness :
  (globals_after (handler_locked Order (shared demo_state) (Handler Receiving 1)),
   granted (handler_locked Order (shared demo_state) (Handler Receiving 1)))
    = spec_tryConsume (shared demo_state) /\
  burgersServed (globals_after
      (handler_locked Order (shared demo_state) (Handler Receiving 1))) = 1 + 1 /\
  globals_after (handler_locked Order (shared closing_state) (Handler Receiving 0))
    = shared closing_state.
Proof.
  assert (forall q, 0 <= q <= 3 -> is_int q) as Hint.
  { intros q Hq. unfold is_int, INT_MIN, INT_MAX. lia. }
  assert (reachable (boot 3 1) demo_state) as Hdemo by (exists demo_run; reflexivity).
  assert (reachable (boot 1 1) closing_state) as Hclose by (exists closing_run; reflexivity).
  destruct (order_attempt_is_tryConsume 3 1 demo_state Order (Handler Receiving 1)
              (Hint 3 ltac:(lia)) Hdemo eq_refl) as (Heq & Hyes & _).
  destruct (order_attempt_is_tryConsume 1 1 closing_state Order (Handler Receiving 0)
              (Hint 1 ltac:(lia)) Hclose eq_refl) as (_ & _ & Hno).
  split; [exact Heq|]. split.
  - destruct Hyes as [H _]; [reflexivity|simpl; lia|exact H].
  - destruct Hno as [H _]; [left; reflexivity|exact H].
Defined.

(** C8. When recv reports a disconnect (0) or an error (negative), the
    handler leaves its loop without sending anything and without touching
    burgersPrepared, burgersServed or serverRunning; in the running server
    the step changes that one session only. *)
Theorem recv_failure_ends_session r g h :
  bytesReceived r <= 0 ->
  handler_body r g h = Body g (set_pc Closed h) [] false /\
  (forall s j n w,
     clients s !! j = Some (Client (Handler Receiving n) w) ->
     step (ClientRecv j r) s =
       Some (System (shared s) (chefs s) (acceptor s)
                    (<[j := Client (Handler Closed n) w]> (clients s)))).
Proof.
  intros Hr.
  assert (forall g' h', handler_body r g' h' = Body g' (set_pc Closed h') [] false) as Hbody.
  { intros g' h'. unfold handler_body.
    destruct (bytesReceived r <=? 0) eqn:E; [reflexivity|lia]. }
  split; [apply Hbody|].
  intros s j n w Hj. simpl. rewrite Hj, Hbody. simpl.
  rewrite app_nil_r. reflexivity.
Qed.

Lemma recv_failure_ends_session_witness :
  handler_body (Recv 0 EmptyString) (Globals 2 1 3 1 true) (Handler Receiving 1)
    = Body (Globals 2 1 3 1 true) (Handler Closed 1) [] false /\
  step (ClientRecv 0%nat (Recv (-1) EmptyString))
       (System (Globals 2 1 3 1 true) [ChefNotifying] MainTest
               [Client (Handler Receiving 1) [Burger_Served]])
    = Some (System (Globals 2 1 3 1 true) [ChefNotifying] MainTest
                   [Client (Handler Closed 1) [Burger_Served]]).
Proof.
  split.
  - apply (recv_failure_ends_session (Recv 0 EmptyString)). simpl. lia.
  - apply (proj2 (recv_failure_ends_session (Recv (-1) EmptyString)
                    (Globals 2 1 3 1 true) (Handler Receiving 1) ltac:(simpl; lia))
             (System (Globals 2 1 3 1 true) [ChefNotifying] MainTest
                     [Client (Handler Receiving 1) [Burger_Served]]) 0%nat 1 [Burger_Served]).
    reflexivity.
Defined.

(** A payload without a zero byte is compared as it is: only the five
    bytes "Order" are served. *)
Lemma c_string_no_NUL s :
  (forall c, In c (list_ascii_of_string s) -> c <> NUL) -> c_string s = s.
Proof.
  induction s as [|c s IH]; simpl; intros H; [reflexivity|].
  destruct (Ascii.eqb_spec c NUL) as [->|Hc].
  - exfalso. apply (H NUL); [left|]; reflexivity.
  - rewrite IH; [reflexivity|]. intros d Hd. apply H. right. exact Hd.
Qed.

(** C10, as the source has it.  The request is compared with strcmp, as
    a C string.  A request whose buffer, read up to its first zero byte, is
    not "Order" (in particular any payload without a zero byte other than
    the five bytes "Order") is never served, whatever the counters are:
    burgersServed is not incremented, nothing is sent, and the handler
    blocks in cv_burger_ready.wait.  The pending request is not served
    after the wait either: the handler's only steps from there lead back
    to the loop test, and from the test into a new recv when serverRunning
    is still true (and the session has orders left), or out of the loop,
    with no request read, when it is not. *)
Theorem other_request_waits r g h :
  0 < bytesReceived r ->
  c_string (orderBuffer r) <> Order \/
  ((forall c, In c (list_ascii_of_string (orderBuffer r)) -> c <> NUL) /\
   orderBuffer r <> Order) ->
  handler_body r g h = Body g (set_pc Waiting h) [] false /\
  (forall s j n w r',
     clients s !! j = Some (Client (Handler Waiting n) w) ->
     step (ClientRecv j r') s = None /\
     step (ClientTest j) s = None /\
     step (ClientWake j) s = None /\
     step (ClientSpurious j) s =
       Some (System (shared s) (chefs s) (acceptor s)
                    (<[j := Client (Handler LoopTest n) w]> (clients s)))) /\
  (forall s j n w r',
     clients s !! j = Some (Client (Handler Notified n) w) ->
     step (ClientRecv j r') s = None /\
     step (ClientTest j) s = None /\
     step (ClientSpurious j) s = None /\
     step (ClientWake j) s =
       Some (System (shared s) (chefs s) (acceptor s)
                    (<[j := Client (Handler LoopTest n) w]> (clients s)))) /\
  (forall s j n w r',
     clients s !! j = Some (Client (Handler LoopTest n) w) ->
     step (ClientRecv j r') s = None /\
     step (ClientTest j) s =
       Some (System (shared s) (chefs s) (acceptor s)
                    (<[j := Client (Handler
                                     (if serverRunning (shared s) && (n <? maxBurgers (shared s))
                                      then Receiving else Closed) n) w]> (clients s)))).
Proof.
  intros Hpos Hbuf.
  assert (c_string (orderBuffer r) <> Order) as Hne.
  { destruct Hbuf as [H|[Hnul H]]; [exact H|].
    rewrite (c_string_no_NUL _ Hnul). exact H. }
  split; [|split; [|split]].
  - unfold handler_body. destruct (bytesReceived r <=? 0) eqn:E; [lia|].
    apply handler_locked_waits. left. exact Hne.
  - intros s j n w r' Hj. simpl. rewrite Hj. repeat split.
  - intros s j n w r' Hj. simpl. rewrite Hj. repeat split.
  - intros s j n w r' Hj. simpl. rewrite Hj. split; [reflexivity|].
    unfold handler_test. simpl. destruct (_ && _); reflexivity.
Qed.

Lemma other_request_waits_witness :
  handler_body (Recv 6 "Orders") (Globals 2 1 3 1 true) (Handler Receiving 1)
    = Body (Globals 2 1 3 1 true) (Handler Waiting 1) [] false /\
  handler_body (Recv 10 "OrderOrder") (Globals 2 1 3 1 true) (Handler Receiving 1)
    = Body (Globals 2 1 3 1 true) (Handler Waiting 1) [] false /\
  step (ClientSpurious 0%nat)
       (System (Globals 2 1 3 1 true) [ChefNotifying] MainTest
               [Client (Handler Waiting 1) [Burger_Served]])
    = Some (System (Globals 2 1 3 1 true) [ChefNotifying] MainTest
                   [Client (Handler LoopTest 1) [Burger_Served]]) /\
  step (ClientTest 0%nat)
       (System (Globals 1 1 1 1 false) [ChefNotifying] MainTest
               [Client (Handler LoopTest 0) []])
    = Some (System (Globals 1 1 1 1 false) [ChefNotifying] MainTest
                   [Client (Handler Closed 0) []]).
Proof.
  assert (c_string (orderBuffer (Recv 6 "Orders")) <> Order) as Hne by discriminate.
  assert (0 < bytesReceived (Recv 6 "Orders")) as Hpos by (simpl; lia).
  destruct (other_request_waits (Recv 6 "Orders") (Globals 2 1 3 1 true)
              (Handler Receiving 1) Hpos (or_introl Hne)) as (Hbody & Hwait & _ & Htest).
  assert ((forall c, In c (list_ascii_of_string (orderBuffer (Recv 10 "OrderOrder"))) ->
             c <> NUL) /\ orderBuffer (Recv 10 "OrderOrder") <> Order) as Hraw.
  { split; [|discriminate]. intros c Hin. simpl in Hin.
    repeat (destruct Hin as [<-|Hin]; [discriminate|]). destruct Hin. }
  assert (0 < bytesReceived (Recv 10 "OrderOrder")) as Hpos' by (simpl; lia).
  destruct (other_request_waits (Recv 10 "OrderOrder") (Globals 2 1 3 1 true)
              (Handler Receiving 1) Hpos' (or_intror Hraw)) as (Hbody' & _).
  split; [exact Hbody|]. split; [exact Hbody'|]. split.
  - apply (Hwait (System (Globals 2 1 3 1 true) [ChefNotifying] MainTest
                         [Client (Handler Waiting 1) [Burger_Served]])
                 0%nat 1 [Burger_Served] (Recv 5 Order)).
    reflexivity.
  - apply (Htest (System (Globals 1 1 1 1 false) [ChefNotifying] MainTest
                         [Client (Handler LoopTest 0) []])
                 0%nat 0 [] (Recv 5 Order)).
    reflexivity.
Defined.

(** C10 as stated fails twice.  A payload that is not exactly "Order"
    but holds "Order" before a zero byte is served like "Order": strcmp
    stops at the zero byte.  And a handler that waits on a request it does
    not serve need not read a new one after waking: with quota 1, client 0
    sends "Orders" while the burger is ready and waits; client 1 is served
    the burger, which closes the shop and wakes client 0; client 0 fails its
    loop test and ends with no request read. *)
Lemma other_request_counterexample :
  (Order ++ String NUL "xyz")%string <> Order /\
  handler_body (Recv 9 (Order ++ String NUL "xyz")%string)
               (Globals 2 1 3 1 true) (Handler Receiving 1)
    = Body (Globals 2 2 3 1 true) (Handler LoopTest 2) [Burger_Served] false /\
  run [MainLoop; Accept 4; MainLoop; Accept 5; ChefLock 0%nat;
       ClientTest 0%nat; ClientRecv 0%nat (Recv 6 "Orders")] (boot 1 1)
    = Some (System (Globals 1 0 1 1 true) [ChefNotifying] MainTest
                   [Client (Handler Waiting 0) []; Client (Handler LoopTest 0) []]) /\
  run [ClientTest 1%nat; ClientRecv 1%nat (Recv 5 Order);
       ClientWake 0%nat; ClientTest 0%nat]
      (System (Globals 1 0 1 1 true) [ChefNotifying] MainTest
              [Client (Handler Waiting 0) []; Client (Handler LoopTest 0) []])
    = Some (System (Globals 1 1 1 1 false) [ChefNotifying] MainTest
                   [Client (Handler Closed 0) [];
                    Client (Handler Closed 1) [Burger_Served; No_more_burgers]]).
Proof.
  split; [discriminate|]. split; [reflexivity|]. split; reflexivity.
Qed.

(** ** What a session receives *)

(** The three things one run of the loop body can send. *)
Lemma handler_body_sent r g h :
  (sent (handler_body r g h) = [] /\ notified (handler_body r g h) = false) \/
  (sent (handler_body r g h) = [Burger_Served] /\
   notified (handler_body r g h) = false) \/
  (sent (handler_body r g h) = [Burger_Served; No_more_burgers] /\
   pc (handler_after (handler_body r g h)) = Closed).
Proof.
  unfold handler_body, handler_locked, serve_burger.
  destruct (bytesReceived r <=? 0); [left; split; reflexivity|].
  destruct (_ && _); [|left; split; reflexivity].
  simpl. destruct (_ <=? _); simpl; [right; right|right; left]; split; reflexivity.
Qed.

Lemma wire_ok_open c :
  wire_ok c -> pc (thread c) <> Closed -> Forall (eq Burger_Served) (wire c).
Proof. intros [H|[H _]] Hpc; [exact H|contradiction]. Qed.

Lemma wake_wire_ok c : wire_ok c -> wire_ok (wake c).
Proof.
  intros H. unfold wake. destruct (pc (thread c)) eqn:E; try exact H.
  left. simpl. apply wire_ok_open; [exact H|congruence].
Qed.

Lemma notify_all_wire_ok cs : Forall wire_ok cs -> Forall wire_ok (notify_all cs).
Proof.
  intros H. unfold notify_all. apply Forall_fmap.
  eapply Forall_impl; [exact H|]. intros c Hc. apply wake_wire_ok, Hc.
Qed.

(** Replacing a session that is still in its loop by one with the same
    socket contents keeps the invariant. *)
Lemma wire_ok_moved cs j p n w h' :
  Forall wire_ok cs -> cs !! j = Some (Client (Handler p n) w) -> p <> Closed ->
  Forall wire_ok (<[j := Client h' w]> cs).
Proof.
  intros Hall Hj Hp. apply Forall_insert; [exact Hall|].
  left. simpl.
  apply (wire_ok_open (Client (Handler p n) w)); [|exact Hp].
  eapply Forall_lookup_1; eassumption.
Qed.

Lemma step_wire_ok a s s' :
  Forall wire_ok (clients s) -> step a s = Some s' -> Forall wire_ok (clients s').
Proof.
  intros Hall. destruct a as [i|i| |fd|j|j r|j|j]; simpl; intros H.
  - repeat case_match; simplify_eq; simpl; exact Hall.
  - repeat case_match; simplify_eq; simpl. apply notify_all_wire_ok, Hall.
  - repeat case_match; simplify_eq; simpl; exact Hall.
  - repeat case_match; simplify_eq; simpl; [|exact Hall].
    apply Forall_app. split; [exact Hall|].
    apply Forall_singleton. left. constructor.
  - destruct (clients s !! j) as [[[p n] w]|] eqn:Hj; [|discriminate].
    destruct p; simplify_eq; simpl.
    eapply wire_ok_moved; [exact Hall|exact Hj|discriminate].
  - destruct (clients s !! j) as [[[p n] w]|] eqn:Hj; [|discriminate].
    destruct p; simplify_eq; simpl.
    assert (Forall (eq Burger_Served) w) as Hw.
    { apply (wire_ok_open (Client (Handler Receiving n) w)); [|discriminate].
      eapply Forall_lookup_1; eassumption. }
    set (b := handler_body r (shared s) (Handler Receiving n)).
    assert (Forall wire_ok (<[j := Client (handler_after b) (w ++ sent b)]> (clients s)))
      as Hins.
    { apply Forall_insert; [exact Hall|].
      destruct (handler_body_sent r (shared s) (Handler Receiving n))
        as [[Hs _]|[[Hs _]|[Hs Hpc]]]; fold b in Hs; try fold b in Hpc; rewrite Hs.
      - left. simpl. rewrite app_nil_r. exact Hw.
      - left. simpl. apply Forall_app. split; [exact Hw|].
        apply Forall_singleton. reflexivity.
      - right. simpl. split; [exact Hpc|].
        exists (w ++ [Burger_Served]). split.
        + rewrite <- app_assoc. reflexivity.
        + apply Forall_app. split; [exact Hw|]. apply Forall_singleton. reflexivity. }
    destruct (notified b); [apply notify_all_wire_ok|]; exact Hins.
  - destruct (clients s !! j) as [[[p n] w]|] eqn:Hj; [|discriminate].
    destruct p; simplify_eq; simpl.
    eapply wire_ok_moved; [exact Hall|exact Hj|discriminate].
  - destruct (clients s !! j) as [[[p n] w]|] eqn:Hj; [|discriminate].
    destruct p; simplify_eq; simpl.
    eapply wire_ok_moved; [exact Hall|exact Hj|discriminate].
Qed.

Lemma run_wire_ok acts : forall s s',
  Forall wire_ok (clients s) -> run acts s = Some s' -> Forall wire_ok (clients s').
Proof.
  induction acts as [|a acts IH]; simpl; intros s s' Hall Hrun.
  - injection Hrun as <-. exact Hall.
  - destruct (step a s) as [s1|] eqn:E; [|discriminate].
    eapply IH; [eapply step_wire_ok|]; eassumption.
Qed.

Lemma all_served_no_closing l : Forall (eq Burger_Served) l -> ~ In No_more_burgers l.
Proof.
  intros H Hin. rewrite Forall_forall in H.
  apply list_elem_of_In, H in Hin. discriminate.
Qed.

(** C5, as the source has it.  A request that is granted (the buffer
    holds "Order" and a burger is available) is answered "Burger Served"
    once, followed by "No more burgers" exactly when that burger brings
    burgersServed to maxBurgers, and then the handler is over.  On every
    session of every execution each message is one of the two, "No more
    burgers" occurs at most once, and when it occurs it is the last message
    and the handler has left its loop. *)
Theorem granted_request_replies :
  (forall r g h,
     typed g -> 0 < bytesReceived r -> c_string (orderBuffer r) = Order ->
     burgersServed g < burgersPrepared g ->
     sent (handler_body r g h) =
       Burger_Served ::
         (if maxBurgers g <=? burgersServed g + 1 then [No_more_burgers] else []) /\
     pc (handler_after (handler_body r g h)) =
       (if maxBurgers g <=? burgersServed g + 1 then Closed else LoopTest)) /\
  (forall mb nc s j c,
     reachable (boot mb nc) s -> clients s !! j = Some c ->
     Forall (fun m => m = Burger_Served \/ m = No_more_burgers) (wire c) /\
     (In No_more_burgers (wire c) ->
        pc (thread c) = Closed /\
        exists before, wire c = before ++ [No_more_burgers] /\
                       ~ In No_more_burgers before)).
Proof.
  split.
  - intros r g h (Hp & Hs & Hm) Hpos Hbuf Hlt.
    unfold handler_body. destruct (bytesReceived r <=? 0) eqn:E; [lia|].
    rewrite handler_locked_served by assumption.
    unfold serve_burger. simpl. rewrite (incr_below _ _ Hs Hp Hlt).
    destruct (maxBurgers g <=? burgersServed g + 1); split; reflexivity.
  - intros mb nc s j c [acts Hrun] Hj.
    assert (wire_ok c) as Hc.
    { eapply Forall_lookup_1; [|exact Hj].
      eapply run_wire_ok; [|exact Hrun]. constructor. }
    destruct Hc as [Hall|(Hpc & before & Hw & Hall)].
    + split.
      * eapply Forall_impl; [exact Hall|]. intros m <-. left. reflexivity.
      * intros Hin. exfalso. exact (all_served_no_closing _ Hall Hin).
    + split.
      * rewrite Hw. apply Forall_app. split.
        -- eapply Forall_impl; [exact Hall|]. intros m <-. left. reflexivity.
        -- apply Forall_singleton. right. reflexivity.
      * intros _. split; [exact Hpc|]. exists before.
        split; [exact Hw|]. apply all_served_no_closing, Hall.
Qed.

Lemma granted_request_replies_witness :
  sent (handler_body (Recv 5 Order) (Globals 2 1 3 1 true) (Handler Receiving 1))
    = [Burger_Served] /\
  (In No_more_burgers [Burger_Served; No_more_burgers] ->
     exists before, [Burger_Served; No_more_burgers] = before ++ [No_more_burgers] /\
                    ~ In No_more_burgers before).
Proof.
  destruct granted_request_replies as [Hone Hall]. split.
  - apply (Hone (Recv 5 Order) (Globals 2 1 3 1 true) (Handler Receiving 1)).
    + unfold typed, is_int, INT_MIN, INT_MAX. simpl. lia.
    + simpl. lia.
    + reflexivity.
    + simpl. lia.
  - intros Hin.
    apply (Hall 1 1 closing_state 1%nat
                (Client (Handler Closed 1) [Burger_Served; No_more_burgers])).
    + exists closing_run. reflexivity.
    + reflexivity.
    + exact Hin.
Defined.

(** C5 as stated fails: the request that is served the last burger gets
    two responses, "Burger Served" and then "No more burgers". *)
Lemma one_reply_counterexample :
  run [ChefLock 0%nat; MainLoop; Accept 4; ClientTest 0%nat] (boot 1 1)
    = Some (System (Globals 1 0 1 1 true) [ChefNotifying] MainTest
                   [Client (Handler Receiving 0) []]) /\
  step (ClientRecv 0%nat (Recv 5 Order))
       (System (Globals 1 0 1 1 true) [ChefNotifying] MainTest
               [Client (Handler Receiving 0) []])
    = Some (System (Globals 1 1 1 1 false) [ChefNotifying] MainTest
                   [Client (Handler Closed 1) [Burger_Served; No_more_burgers]]) /\
  length (sent (handler_body (Recv 5 Order) (Globals 1 0 1 1 true) (Handler Receiving 0)))
    = 2%nat.
Proof. repeat split. Qed.

(** ** Closing the shop *)

(** C6, as the source has it.  A handler that finds serverRunning false
    at its loop test (one woken from the wait by the closing notify_all
    included) leaves the loop and closes its socket without sending
    anything.  "No more burgers" is sent by one handler only, the one that
    serves the last burger: it clears serverRunning, calls notify_all, and
    sends the message to its own session right after "Burger Served",
    then leaves its loop. *)
Theorem closing_message_only_after_last_burger :
  (forall g h, serverRunning g = false -> handler_test g h = set_pc Closed h) /\
  (forall s j n w,
     serverRunning (shared s) = false ->
     clients s !! j = Some (Client (Handler LoopTest n) w) ->
     step (ClientTest j) s =
       Some (System (shared s) (chefs s) (acceptor s)
                    (<[j := Client (Handler Closed n) w]> (clients s)))) /\
  (forall r g h,
     typed g ->
     In No_more_burgers (sent (handler_body r g h)) ->
     0 < bytesReceived r /\ c_string (orderBuffer r) = Order /\
     burgersServed g < burgersPrepared g /\ maxBurgers g <= burgersServed g + 1 /\
     sent (handler_body r g h) = [Burger_Served; No_more_burgers] /\
     pc (handler_after (handler_body r g h)) = Closed /\
     serverRunning (globals_after (handler_body r g h)) = false /\
     notified (handler_body r g h) = true) /\
  (forall r g h,
     typed g -> 0 < bytesReceived r -> c_string (orderBuffer r) = Order ->
     burgersServed g < burgersPrepared g -> maxBurgers g <= burgersServed g + 1 ->
     sent (handler_body r g h) = [Burger_Served; No_more_burgers]).
Proof.
  assert (forall g h, serverRunning g = false -> handler_test g h = set_pc Closed h) as Htest.
  { intros g h Hf. unfold handler_test. rewrite Hf. reflexivity. }
  split; [exact Htest|]. split; [|split].
  - intros s j n w Hf Hj. simpl. rewrite Hj, (Htest _ _ Hf). reflexivity.
  - intros r g h (Hp & Hs & Hm). unfold handler_body.
    destruct (bytesReceived r <=? 0) eqn:E; [intros []|].
    unfold handler_locked.
    destruct (strcmp (orderBuffer r) Order =? 0) eqn:Hcmp; [|intros []].
    destruct (burgersServed g <? burgersPrepared g) eqn:Hlt; [|intros []].
    apply strcmp_Order in Hcmp. simpl. unfold serve_burger. simpl.
    rewrite (incr_below _ _ Hs Hp) by lia.
    destruct (maxBurgers g <=? burgersServed g + 1) eqn:Hlast; simpl.
    + intros _. repeat split; trivial; lia.
    + intros [H|[]]. discriminate.
  - intros r g h (Hp & Hs & Hm) Hpos Hbuf Hlt Hlast. unfold handler_body.
    destruct (bytesReceived r <=? 0) eqn:E; [lia|].
    rewrite handler_locked_served by assumption.
    unfold serve_burger. simpl. rewrite (incr_below _ _ Hs Hp Hlt).
    destruct (maxBurgers g <=? burgersServed g + 1) eqn:E1; [reflexivity|lia].
Qed.

Lemma closing_message_only_after_last_burger_witness :
  handler_test (Globals 1 1 1 1 false) (Handler LoopTest 0) = Handler Closed 0 /\
  step (ClientTest 0%nat)
       (System (Globals 1 1 1 1 false) [ChefNotifying] MainTest
               [Client (Handler LoopTest 0) []])
    = Some (System (Globals 1 1 1 1 false) [ChefNotifying] MainTest
                   [Client (Handler Closed 0) []]) /\
  sent (handler_body (Recv 5 Order) (Globals 3 2 3 1 true) (Handler Receiving 2))
    = [Burger_Served; No_more_burgers] /\
  serverRunning (globals_after
    (handler_body (Recv 5 Order) (Globals 3 2 3 1 true) (Handler Receiving 2))) = false.
Proof.
  destruct closing_message_only_after_last_burger as (Htest & Hstep & Honly & Hlast).
  assert (typed (Globals 3 2 3 1 true)) as Ht.
  { unfold typed, is_int, INT_MIN, INT_MAX. simpl. lia. }
  assert (sent (handler_body (Recv 5 Order) (Globals 3 2 3 1 true) (Handler Receiving 2))
          = [Burger_Served; No_more_burgers]) as Hsent.
  { apply Hlast; simpl; [exact Ht|lia|reflexivity|lia|lia]. }
  split; [apply Htest; reflexivity|]. split; [|split].
  - apply (Hstep (System (Globals 1 1 1 1 false) [ChefNotifying] MainTest
                         [Client (Handler LoopTest 0) []]) 0%nat 0 []); reflexivity.
  - exact Hsent.
  - apply (Honly (Recv 5 Order) (Globals 3 2 3 1 true) (Handler Receiving 2) Ht).
    rewrite Hsent. right. left. reflexivity.
Defined.

(** C6 as stated fails: in [closing_run] client 0 is blocked in the wait
    when client 1 is served the last burger; the closing notify_all wakes
    it, it finds serverRunning false at its loop test and ends its session
    with nothing sent on its socket. *)
Lemma woken_handler_counterexample :
  run closing_run (boot 1 1) = Some closing_state /\
  run [ClientWake 0%nat; ClientTest 0%nat] closing_state
    = Some (System (Globals 1 1 1 1 false) [ChefNotifying] MainTest
                   [Client (Handler Closed 0) [];
                    Client (Handler Closed 1) [Burger_Served; No_more_burgers]]) /\
  ~ In No_more_burgers (wire (Client (Handler Closed 0) [])).
Proof. split; [reflexivity|]. split; [reflexivity|]. intros []. Qed.

(** ** Startup *)

(** C7, as the source has it.  main checks the number of arguments and
    nothing else: with arguments given but not exactly two, it prints the
    usage line and returns 1 before any chef or handler exists; with none
    it serves the default 25 burgers with 2 chefs; with exactly two it
    takes whatever integers atoi reads from them, non-positive ones
    included, and creates numChefs chef threads (none when numChefs is not
    positive). *)
Theorem main_start_checks_argc_only argv :
  ((1 < length argv)%nat -> length argv <> 3%nat ->
     main_start argv = Exit (usage (nth 0 argv EmptyString)) 1) /\
  ((length argv <= 1)%nat -> main_start argv = Serving (boot 25 2)) /\
  (forall a0 a1 a2, argv = [a0; a1; a2] ->
     main_start argv = Serving (boot (atoi a1) (atoi a2))) /\
  (forall s, main_start argv = Serving s ->
     typed (shared s) /\
     length (chefs s) = Z.to_nat (numChefs (shared s)) /\
     Forall (eq ChefLocking) (chefs s) /\
     clients s = []).
Proof.
  assert (forall mb nc, is_int mb ->
            typed (shared (boot mb nc)) /\
            length (chefs (boot mb nc)) = Z.to_nat (numChefs (shared (boot mb nc))) /\
            Forall (eq ChefLocking) (chefs (boot mb nc)) /\
            clients (boot mb nc) = []) as Hboot.
  { intros mb nc Hmb. split; [apply boot_typed, Hmb|]. simpl.
    split; [apply length_replicate|]. split; [|reflexivity].
    apply Forall_replicate. reflexivity. }
  unfold main_start. split; [|split; [|split]].
  - intros H1 H3.
    destruct (1 <? Z.of_nat (length argv)) eqn:E1; [|lia].
    destruct (Z.of_nat (length argv) =? 3) eqn:E3; [lia|reflexivity].
  - intros H1. destruct (1 <? Z.of_nat (length argv)) eqn:E1; [lia|reflexivity].
  - intros a0 a1 a2 ->. reflexivity.
  - intros s.
    destruct (1 <? Z.of_nat (length argv)); [destruct (_ =? 3); [|discriminate]|];
      intros H; injection H as <-; apply Hboot.
    + apply atoi_is_int.
    + unfold is_int, INT_MIN, INT_MAX. simpl. lia.
Qed.

Lemma main_start_checks_argc_only_witness :
  main_start ["./server"; "5"]%string
    = Exit "Usage: ./server <MaxBurgers> <NumChefs>" 1 /\
  main_start ["./server"]%string = Serving (boot 25 2) /\
  main_start ["./server"; "-3"; "0"]%string = Serving (boot (-3) 0) /\
  chefs (boot (-3) 0) = [].
Proof.
  split; [|split; [|split]].
  - apply (proj1 (main_start_checks_argc_only ["./server"; "5"]%string)).
    + simpl. lia.
    + discriminate.
  - apply (proj1 (proj2 (main_start_checks_argc_only ["./server"]%string))).
    simpl. lia.
  - apply (proj1 (proj2 (proj2 (main_start_checks_argc_only ["./server"; "-3"; "0"]%string)))
             "./server" "-3" "0")%string.
    reflexivity.
  - apply nil_length_inv.
    apply (proj2 (proj2 (proj2 (main_start_checks_argc_only ["./server"; "-3"; "0"]%string)))
             (boot (-3) 0)).
    reflexivity.
Defined.

(** C7 as stated fails: started with a quota of 0 the server is not
    rejected, it creates its two chefs and enters the accept loop; started
    with no chef at all it is not rejected either. *)
Lemma nonpositive_config_counterexample :
  main_start ["./server"; "0"; "2"]%string
    = Serving (System (Globals 0 0 0 2 true) [ChefLocking; ChefLocking] MainTest []) /\
  main_start ["./server"; "5"; "0"]%string
    = Serving (System (Globals 0 0 5 0 true) [] MainTest []).
Proof. split; reflexivity. Qed.

(** * Further properties of the server *)

Lemma step_sound a s s' : step a s = Some s' -> step_rel s a s'.
Proof.
  destruct a as [i|i| |fd|j|j r|j|j]; simpl; intros H.
  - destruct (chefs s !! i) as [[]|] eqn:Hi; try discriminate.
    destruct (chef_locked (shared s)) as [g p] eqn:E. injection H as <-.
    pose proof (rel_chef_lock s i Hi) as R. rewrite E in R. exact R.
  - destruct (chefs s !! i) as [[]|] eqn:Hi; try discriminate.
    injection H as <-. constructor. exact Hi.
  - destruct (acceptor s) eqn:Ha; try discriminate.
    injection H as <-. constructor. exact Ha.
  - destruct (acceptor s) eqn:Ha; try discriminate.
    injection H as <-. constructor. exact Ha.
  - destruct (clients s !! j) as [[[p n] w]|] eqn:Hj; [|discriminate].
    destruct p; try discriminate. injection H as <-. constructor. exact Hj.
  - destruct (clients s !! j) as [[[p n] w]|] eqn:Hj; [|discriminate].
    destruct p; try discriminate. injection H as <-.
    exact (rel_client_recv s j r n w Hj).
  - destruct (clients s !! j) as [[[p n] w]|] eqn:Hj; [|discriminate].
    destruct p; try discriminate. injection H as <-. constructor. exact Hj.
  - destruct (clients s !! j) as [[[p n] w]|] eqn:Hj; [|discriminate].
    destruct p; try discriminate. injection H as <-. constructor. exact Hj.
Qed.

(** An invariant of the whole system holds after every run. *)
Lemma run_invariant (I : system -> Prop) :
  (forall s a s', I s -> step_rel s a s' -> I s') ->
  forall acts s s', I s -> run acts s = Some s' -> I s'.
Proof.
  intros HI acts. induction acts as [|a acts IH]; simpl; intros s s' Hs Hrun.
  - injection Hrun as <-. exact Hs.
  - destruct (step a s) as [s1|] eqn:E; [|discriminate].
    apply (IH s1 s'); [|exact Hrun]. eapply HI; [exact Hs|]. apply step_sound, E.
Qed.

Lemma run_app acts1 : forall acts2 s s1,
  run acts1 s = Some s1 -> run (acts1 ++ acts2) s = run acts2 s1.
Proof.
  induction acts1 as [|a acts1 IH]; simpl; intros acts2 s s1 H.
  - injection H as <-. reflexivity.
  - destruct (step a s) as [s0|]; [|discriminate]. apply IH, H.
Qed.

(** The three ways the loop body can end. *)
Lemma handler_body_cases r g h :
  handler_body r g h = Body g (set_pc Closed h) [] false \/
  handler_body r g h = Body g (set_pc Waiting h) [] false \/
  (burgersServed g < burgersPrepared g /\ handler_body r g h = serve_burger g h).
Proof.
  unfold handler_body, handler_locked.
  destruct (bytesReceived r <=? 0); [left; reflexivity|].
  destruct (strcmp _ _ =? 0); [|right; left; reflexivity].
  destruct (burgersServed g <? burgersPrepared g) eqn:E;
    [|right; left; reflexivity].
  right. right. split; [lia|reflexivity].
Qed.

(** ** Accounting *)

Lemma count_burgers_app w1 w2 :
  count_burgers (w1 ++ w2) = count_burgers w1 + count_burgers w2.
Proof. induction w1 as [|m w1 IH]; simpl; [reflexivity|]. rewrite IH. lia. Qed.

Lemma count_burgers_nonneg w : 0 <= count_burgers w.
Proof. induction w as [|m w IH]; simpl; [lia|]. destruct (String.eqb _ _); lia. Qed.

Lemma burgers_sent_nonneg cs : 0 <= burgers_sent cs.
Proof.
  induction cs as [|c cs IH]; simpl; [lia|].
  pose proof (count_burgers_nonneg (wire c)). lia.
Qed.

Lemma burgers_sent_app cs1 cs2 :
  burgers_sent (cs1 ++ cs2) = burgers_sent cs1 + burgers_sent cs2.
Proof. induction cs1 as [|c cs1 IH]; simpl; [reflexivity|]. rewrite IH. lia. Qed.

Lemma burgers_sent_insert cs : forall j c c',
  cs !! j = Some c ->
  burgers_sent (<[j := c']> cs) =
  burgers_sent cs - count_burgers (wire c) + count_burgers (wire c').
Proof.
  induction cs as [|c0 cs IH]; intros [|j] c c' Hj; simpl in *; try discriminate.
  - injection Hj as ->. lia.
  - rewrite (IH j c c' Hj). lia.
Qed.

Lemma burgers_sent_lookup cs : forall j c,
  cs !! j = Some c -> count_burgers (wire c) <= burgers_sent cs.
Proof.
  induction cs as [|c0 cs IH]; intros [|j] c Hj; simpl in *; try discriminate.
  - injection Hj as ->. pose proof (burgers_sent_nonneg cs). lia.
  - pose proof (IH j c Hj). pose proof (count_burgers_nonneg (wire c0)). lia.
Qed.

Lemma wire_wake c : wire (wake c) = wire c.
Proof. unfold wake. destruct (pc (thread c)); reflexivity. Qed.

Lemma ordersProcessed_wake c :
  ordersProcessed (thread (wake c)) = ordersProcessed (thread c).
Proof. unfold wake. destruct (pc (thread c)); reflexivity. Qed.

Lemma burgers_sent_notify cs : burgers_sent (notify_all cs) = burgers_sent cs.
Proof.
  unfold notify_all. induction cs as [|c cs IH]; simpl; [reflexivity|].
  rewrite wire_wake. f_equal. exact IH.
Qed.

Lemma tallied_notify cs : Forall tallied cs -> Forall tallied (notify_all cs).
Proof.
  intros H. unfold notify_all. apply Forall_fmap.
  eapply Forall_impl; [exact H|]. intros c Hc. unfold tallied, compose.
  rewrite ordersProcessed_wake, wire_wake. exact Hc.
Qed.

Lemma clients_replace cs j c c' :
  cs !! j = Some c -> wire c' = wire c ->
  ordersProcessed (thread c') = ordersProcessed (thread c) ->
  Forall tallied cs ->
  burgers_sent (<[j := c']> cs) = burgers_sent cs /\ Forall tallied (<[j := c']> cs).
Proof.
  intros Hj Hw Hn Hall. split.
  - rewrite (burgers_sent_insert cs j c c' Hj), Hw. lia.
  - apply Forall_insert; [exact Hall|]. unfold tallied. rewrite Hn, Hw.
    exact (Forall_lookup_1 _ _ _ _ Hall Hj).
Qed.

Lemma accounted_step s a s' : accounted s -> step_rel s a s' -> accounted s'.
Proof.
  intros (Ht & Hle & Hsum & Hall) R. pose proof Ht as (Hp & Hs & Hm).
  destruct R as [i Hi|i Hi|Ha|fd Ha|j n w Hj|j r n w Hj|j n w Hj|j n w Hj];
    unfold accounted; simpl.
  - unfold chef_locked. destruct (maxBurgers (shared s) <=? burgersPrepared (shared s)) eqn:E;
      simpl; [tauto|].
    rewrite (incr_below _ _ Hp Hm) by lia.
    split; [|split; [lia|tauto]].
    unfold typed, is_int, INT_MIN, INT_MAX in *. simpl. lia.
  - rewrite burgers_sent_notify.
    split; [exact Ht|]. split; [exact Hle|]. split; [exact Hsum|].
    apply tallied_notify, Hall.
  - tauto.
  - destruct (0 <=? fd); [|tauto].
    rewrite burgers_sent_app. simpl.
    split; [exact Ht|]. split; [exact Hle|]. split; [lia|].
    apply Forall_app. split; [exact Hall|]. apply Forall_singleton. reflexivity.
  - destruct (clients_replace (clients s) j _
                (Client (handler_test (shared s) (Handler LoopTest n)) w) Hj)
      as [E F]; try assumption; try reflexivity.
    { unfold handler_test. destruct (_ && _); reflexivity. }
    rewrite E. tauto.
  - pose proof (Forall_lookup_1 _ _ _ _ Hall Hj) as Hn. unfold tallied in Hn. simpl in Hn.
    destruct (handler_body_cases r (shared s) (Handler Receiving n))
      as [->|[->|[Hlt ->]]]; unfold set_pc; simpl.
    + destruct (clients_replace (clients s) j _ (Client (Handler Closed n) (w ++ [])) Hj)
        as [E F]; try assumption; try reflexivity.
      { simpl. apply app_nil_r. }
      rewrite E. tauto.
    + destruct (clients_replace (clients s) j _ (Client (Handler Waiting n) (w ++ [])) Hj)
        as [E F]; try assumption; try reflexivity.
      { simpl. apply app_nil_r. }
      rewrite E. tauto.
    + pose proof (burgers_sent_lookup _ _ _ Hj) as Hc. simpl in Hc.
      pose proof (count_burgers_nonneg w) as Hw0.
      assert (incr n = n + 1) as En.
      { apply (incr_below n (burgersPrepared (shared s))); [|exact Hp|lia].
        unfold is_int, INT_MIN, INT_MAX in *. lia. }
      assert (incr (burgersServed (shared s)) = burgersServed (shared s) + 1) as Es.
      { apply (incr_below _ _ Hs Hp Hlt). }
      unfold serve_burger. simpl. rewrite En, Es.
      assert (is_int (burgersServed (shared s) + 1)) as Hs1.
      { unfold is_int, INT_MIN, INT_MAX in *. lia. }
      destruct (maxBurgers (shared s) <=? burgersServed (shared s) + 1); simpl.
      * rewrite burgers_sent_notify,
          (burgers_sent_insert _ _ _ _ Hj). simpl.
        rewrite count_burgers_app. simpl.
        split; [exact (conj Hp (conj Hs1 Hm))|]. split; [lia|]. split; [lia|].
        apply tallied_notify, Forall_insert; [exact Hall|].
        unfold tallied. simpl. rewrite count_burgers_app. simpl. lia.
      * rewrite (burgers_sent_insert _ _ _ _ Hj). simpl.
        rewrite count_burgers_app. simpl.
        split; [exact (conj Hp (conj Hs1 Hm))|]. split; [lia|]. split; [lia|].
        apply Forall_insert; [exact Hall|].
        unfold tallied. simpl. rewrite count_burgers_app. simpl. lia.
  - destruct (clients_replace (clients s) j _ (Client (Handler LoopTest n) w) Hj)
      as [E F]; try assumption; try reflexivity.
    rewrite E. tauto.
  - destruct (clients_replace (clients s) j _ (Client (Handler LoopTest n) w) Hj)
      as [E F]; try assumption; try reflexivity.
    rewrite E. tauto.
Qed.

Lemma accounted_boot mb nc : is_int mb -> accounted (boot mb nc).
Proof.
  intros Hmb. unfold accounted. simpl.
  split; [apply boot_typed, Hmb|]. split; [lia|]. split; [reflexivity|constructor].
Qed.

Lemma reachable_accounted mb nc s :
  is_int mb -> reachable (boot mb nc) s -> accounted s.
Proof.
  intros Hmb [acts Hrun].
  exact (run_invariant accounted accounted_step acts _ _ (accounted_boot mb nc Hmb) Hrun).
Qed.

(** X1. Every burger served is on exactly one socket: in every reachable
    state burgersServed is the total number of "Burger Served" messages
    sent over all sessions, and each handler's ordersProcessed is the number
    sent on its own socket. *)
Theorem served_burgers_accounted mb nc s :
  is_int mb -> reachable (boot mb nc) s ->
  burgersServed (shared s) = burgers_sent (clients s) /\
  (forall j c, clients s !! j = Some c ->
     ordersProcessed (thread c) = count_burgers (wire c) /\
     0 <= ordersProcessed (thread c) <= burgersServed (shared s)).
Proof.
  intros Hmb Hreach.
  destruct (reachable_accounted mb nc s Hmb Hreach) as (_ & _ & Hsum & Hall).
  split; [exact Hsum|]. intros j c Hj.
  pose proof (Forall_lookup_1 _ _ _ _ Hall Hj) as Hn. unfold tallied in Hn.
  pose proof (burgers_sent_lookup _ _ _ Hj). pose proof (count_burgers_nonneg (wire c)).
  split; [exact Hn|]. lia.
Qed.

Lemma served_burgers_accounted_witness :
  burgersServed (shared closing_state) = burgers_sent (clients closing_state) /\
  ordersProcessed (Handler Closed 1) = count_burgers [Burger_Served; No_more_burgers].
Proof.
  assert (is_int 1) as H1 by (unfold is_int, INT_MIN, INT_MAX; lia).
  assert (reachable (boot 1 1) closing_state) as Hr by (exists closing_run; reflexivity).
  destruct (served_burgers_accounted 1 1 closing_state H1 Hr) as [Hsum Hall].
  split; [exact Hsum|].
  apply (Hall 1%nat (Client (Handler Closed 1) [Burger_Served; No_more_burgers])).
  reflexivity.
Defined.

(** X2. With a positive quota the second half of the handler's loop
    condition never decides: in every reachable state a handler at its loop
    test goes on to recv exactly when serverRunning is true, because a
    session's ordersProcessed reaches maxBurgers only with the burger that
    closes the shop. *)
Theorem loop_test_follows_serverRunning mb nc s j c :
  0 < mb -> is_int mb -> reachable (boot mb nc) s -> clients s !! j = Some c ->
  handler_test (shared s) (thread c) =
    set_pc (if serverRunning (shared s) then Receiving else Closed) (thread c).
Proof.
  intros Hpos Hmb Hreach Hj.
  destruct (reachable_inv mb nc s Hpos Hmb Hreach) as (_ & (Hb & Hq & Hr)).
  destruct (reachable_accounted mb nc s Hmb Hreach) as (_ & _ & Hsum & Hall).
  pose proof (Forall_lookup_1 _ _ _ _ Hall Hj) as Hn. unfold tallied in Hn.
  pose proof (burgers_sent_lookup _ _ _ Hj) as Hc.
  unfold handler_test. destruct (serverRunning (shared s)) eqn:Hrun; [|reflexivity].
  simpl. destruct (ordersProcessed (thread c) <? maxBurgers (shared s)) eqn:E;
    [reflexivity|].
  assert (burgersServed (shared s) = maxBurgers (shared s)) as Hfull by lia.
  apply Hr in Hfull. congruence.
Qed.

Lemma loop_test_follows_serverRunning_witness :
  handler_test (shared demo_state) (Handler LoopTest 1) = Handler Receiving 1.
Proof.
  apply (loop_test_follows_serverRunning 3 1 demo_state 0%nat
           (Client (Handler LoopTest 1) [Burger_Served])).
  - lia.
  - unfold is_int, INT_MIN, INT_MAX. lia.
  - exists demo_run. reflexivity.
  - reflexivity.
Defined.

(** ** After the last burger *)

Lemma step_rel_shared s a s' : step_rel s a s' -> shared_move (shared s) (shared s').
Proof.
  intros R. destruct R; simpl; try constructor.
  - apply chef_locked_move.
  - apply handler_body_move.
Qed.

(** In a closed shop no move of the globals is left. *)
Lemma closed_shop_frozen g g' : closed_shop g -> shared_move g g' -> g' = g.
Proof.
  intros ((Hp & Hs & Hm) & (Hb & Hq & Hr) & Hf) M.
  apply Hr in Hf. destruct M as [|Hlt|h Hlt]; [reflexivity|lia|lia].
Qed.

Lemma wires_notify (cs : list client) : wire <$> notify_all cs = wire <$> cs.
Proof.
  unfold notify_all. rewrite <- list_fmap_compose.
  apply list_fmap_ext. intros i c _. apply wire_wake.
Qed.

Lemma wires_insert (cs : list client) (j : nat) c :
  wire <$> <[j := c]> cs = <[j := wire c]> (wire <$> cs).
Proof. apply list_fmap_insert. Qed.

Lemma wires_replace (cs : list client) (j : nat) c c' :
  cs !! j = Some c -> wire c' = wire c -> wire <$> <[j := c']> cs = wire <$> cs.
Proof.
  intros Hj Hw. rewrite wires_insert, Hw. apply list_insert_id.
  rewrite list_lookup_fmap, Hj. reflexivity.
Qed.

Lemma chef_locked_running g : serverRunning (chef_locked g).1 = serverRunning g.
Proof. unfold chef_locked. destruct (_ <=? _); reflexivity. Qed.

(** What one step does to the sockets: nothing, a new empty session, or
    one reply to a granted order. *)
Lemma step_wires s a s' :
  step_rel s a s' ->
  (serverRunning (shared s') = serverRunning (shared s) /\
   (wires s' = wires s \/ wires s' = wires s ++ [[]])) \/
  (exists j w,
     wires s !! j = Some w /\ burgersServed (shared s) < burgersPrepared (shared s) /\
     ((wires s' = <[j := w ++ [Burger_Served]]> (wires s) /\
       serverRunning (shared s') = serverRunning (shared s)) \/
      (wires s' = <[j := w ++ [Burger_Served; No_more_burgers]]> (wires s) /\
       serverRunning (shared s') = false))).
Proof.
  intros R.
  destruct R as [i Hi|i Hi|Ha|fd Ha|j n w Hj|j r n w Hj|j n w Hj|j n w Hj];
    unfold wires; simpl.
  - left. split; [apply chef_locked_running|left; reflexivity].
  - left. split; [reflexivity|left; apply wires_notify].
  - left. split; [reflexivity|left; reflexivity].
  - left. split; [reflexivity|]. destruct (0 <=? fd); [right|left; reflexivity].
    rewrite fmap_app. reflexivity.
  - left. split; [reflexivity|left]. eapply wires_replace; [exact Hj|reflexivity].
  - assert ((wire <$> clients s) !! j = Some w) as Hw.
    { rewrite list_lookup_fmap, Hj. reflexivity. }
    destruct (handler_body_cases r (shared s) (Handler Receiving n))
      as [->|[->|[Hlt ->]]]; simpl.
    + left. split; [reflexivity|left].
      eapply wires_replace; [exact Hj|apply app_nil_r].
    + left. split; [reflexivity|left].
      eapply wires_replace; [exact Hj|apply app_nil_r].
    + right. exists j, w. split; [exact Hw|]. split; [exact Hlt|].
      unfold serve_burger. simpl. destruct (_ <=? _); simpl.
      * right. split; [|reflexivity]. rewrite wires_notify. apply wires_insert.
      * left. split; [|reflexivity]. apply wires_insert.
  - left. split; [reflexivity|left]. eapply wires_replace; [exact Hj|reflexivity].
  - left. split; [reflexivity|left]. eapply wires_replace; [exact Hj|reflexivity].
Qed.

(** X3. Once the shop is closed nothing more happens to the counters or
    on the sockets: from a state where serverRunning is false (and the pool
    invariant holds), every run leaves the globals as they are, and the
    sockets carry what they carried; sessions accepted later stay empty.
    In particular no session is sent "No more burgers" after the one that
    got the last burger. *)
Theorem nothing_sent_after_closing s acts s' :
  closed_shop (shared s) -> run acts s = Some s' ->
  shared s' = shared s /\
  exists k, wires s' = wires s ++ replicate k [].
Proof.
  intros Hclosed Hrun.
  pose (I := fun t => shared t = shared s /\ exists k, wires t = wires s ++ replicate k []).
  apply (run_invariant I) with acts s; [|split; [reflexivity|]|exact Hrun].
  - intros t a t' [Hg [k Hk]] R.
    assert (shared t' = shared s) as Hg'.
    { rewrite <- Hg. apply closed_shop_frozen; [rewrite Hg; exact Hclosed|].
      eapply step_rel_shared, R. }
    split; [exact Hg'|].
    destruct (step_wires t a t' R) as [[_ [E|E]]|(j & w & _ & Hlt & _)].
    + exists k. rewrite E. exact Hk.
    + exists (S k). rewrite E, Hk, <- app_assoc. f_equal.
      change [[]] with (replicate 1 (@nil string)).
      rewrite <- replicate_add. f_equal. lia.
    + exfalso. rewrite Hg in Hlt.
      destruct Hclosed as (_ & (Hb & Hq & Hr) & Hf). apply Hr in Hf. lia.
  - exists 0%nat. simpl. rewrite app_nil_r. reflexivity.
Qed.

Lemma nothing_sent_after_closing_witness :
  shared (System (Globals 1 1 1 1 false) [ChefNotifying] MainTest
            [Client (Handler Closed 0) [];
             Client (Handler Closed 1) [Burger_Served; No_more_burgers]])
    = shared closing_state.
Proof.
  apply (nothing_sent_after_closing closing_state [ClientWake 0%nat; ClientTest 0%nat]).
  - unfold closed_shop, typed, pool_inv, is_int, INT_MIN, INT_MAX. simpl.
    split; [lia|]. split; [|reflexivity]. split; [lia|]. split; [lia|].
    split; reflexivity.
  - reflexivity.
Defined.

Lemma told_step s a s' :
  typed (shared s) -> pool_inv (shared s) -> told s -> step_rel s a s' -> told s'.
Proof.
  intros Ht (Hb & Hq & Hr) Htold R. unfold told in *.
  destruct (step_wires s a s' R) as [[Erun Ew]|(j & w & Hj & Hlt & Hcase)].
  - rewrite Erun. destruct (serverRunning (shared s)).
    + destruct Ew as [->| ->]; [exact Htold|].
      apply Forall_app. split; [exact Htold|]. apply Forall_singleton. constructor.
    + destruct Htold as (j & w & Hj & Hw & Hothers).
      destruct Ew as [->| ->]; [exists j, w; auto|].
      exists j, w. split; [apply lookup_app_l_Some, Hj|]. split; [exact Hw|].
      intros k w' Hk Hlook. apply lookup_app_Some in Hlook.
      destruct Hlook as [Hlook|[_ Hlook]]; [exact (Hothers k w' Hk Hlook)|].
      apply list_lookup_singleton_Some in Hlook. destruct Hlook as [_ <-]. constructor.
  - destruct (serverRunning (shared s)) eqn:Hrun.
    2:{ exfalso. assert (burgersServed (shared s) = maxBurgers (shared s)) by (apply Hr; reflexivity).
        lia. }
    pose proof (Forall_lookup_1 _ _ _ _ Htold Hj) as Hw.
    destruct Hcase as [[-> ->]|[-> ->]].
    + apply Forall_insert; [exact Htold|].
      apply Forall_app. split; [exact Hw|]. apply Forall_singleton. reflexivity.
    + exists j, (w ++ [Burger_Served]). split; [|split].
      * rewrite list_lookup_insert_eq by (eapply lookup_lt_Some, Hj).
        rewrite <- app_assoc. reflexivity.
      * apply Forall_app. split; [exact Hw|]. apply Forall_singleton. reflexivity.
      * intros k w' Hk Hlook. rewrite list_lookup_insert_ne in Hlook by congruence.
        exact (Forall_lookup_1 _ _ _ _ Htold Hlook).
Qed.

(** X4. With a positive quota, serverRunning is false exactly when some
    session has been sent "No more burgers", and over the whole life of the
    server at most one session ever is: the one that was served the last
    burger. *)
Theorem one_session_told_closed mb nc s :
  0 < mb -> is_int mb -> reachable (boot mb nc) s ->
  (serverRunning (shared s) = false <->
     exists j w, wires s !! j = Some w /\ In No_more_burgers w) /\
  (forall j k wj wk,
     wires s !! j = Some wj -> wires s !! k = Some wk ->
     In No_more_burgers wj -> In No_more_burgers wk -> j = k).
Proof.
  intros Hpos Hmb [acts Hrun].
  pose (I := fun t => typed (shared t) /\ pool_inv (shared t) /\ told t).
  assert (I s) as (_ & _ & Htold).
  { apply (run_invariant I) with acts (boot mb nc); [| |exact Hrun].
    - intros t a t' (Ht & Hi & Hto) R. pose proof (step_rel_shared _ _ _ R) as M.
      split; [eapply shared_move_typed; eassumption|].
      split; [eapply shared_move_inv; eassumption|].
      eapply told_step; eassumption.
    - split; [apply boot_typed, Hmb|]. split; [apply boot_inv, Hpos|].
      unfold told, wires. simpl. constructor. }
  unfold told in Htold. destruct (serverRunning (shared s)).
  - assert (forall j w, wires s !! j = Some w -> ~ In No_more_burgers w) as Hnone.
    { intros j w Hj. apply all_served_no_closing.
      exact (Forall_lookup_1 _ _ _ _ Htold Hj). }
    split.
    + split; [discriminate|]. intros (j & w & Hj & Hin). destruct (Hnone j w Hj Hin).
    + intros j k wj wk Hj _ Hin. destruct (Hnone j wj Hj Hin).
  - destruct Htold as (j0 & w0 & Hj0 & Hw0 & Hothers).
    assert (forall j w, wires s !! j = Some w -> In No_more_burgers w -> j = j0) as Hone.
    { intros j w Hj Hin. destruct (decide (j = j0)) as [E|Hne]; [exact E|].
      destruct (all_served_no_closing _ (Hothers j w Hne Hj) Hin). }
    split.
    + split; [|reflexivity]. intros _. exists j0, (w0 ++ [No_more_burgers]).
      split; [exact Hj0|]. apply in_or_app. right. left. reflexivity.
    + intros j k wj wk Hj Hk Hinj Hink.
      rewrite (Hone j wj Hj Hinj), (Hone k wk Hk Hink). reflexivity.
Qed.

Lemma one_session_told_closed_witness :
  serverRunning (shared closing_state) = false <->
  exists j w, wires closing_state !! j = Some w /\ In No_more_burgers w.
Proof.
  apply (one_session_told_closed 1 1 closing_state).
  - lia.
  - unfold is_int, INT_MIN, INT_MAX. lia.
  - exists closing_run. reflexivity.
Defined.

(** ** The chefs and the accept loop *)

(** X5. There are always numChefs chef threads, and a chef returns only
    when the quota has been prepared: in every reachable state, if some
    chef has left its loop then burgersPrepared has reached maxBurgers
    (with a positive quota it equals it). *)
Theorem chef_returns_when_quota_prepared mb nc s :
  is_int mb -> reachable (boot mb nc) s ->
  length (chefs s) = Z.to_nat nc /\
  (forall i, chefs s !! i = Some ChefReturned ->
     mb <= burgersPrepared (shared s) /\
     (0 < mb -> burgersPrepared (shared s) = mb)).
Proof.
  intros Hmb Hreach. pose proof Hreach as [acts Hrun].
  pose (I := fun t =>
    typed (shared t) /\ maxBurgers (shared t) = mb /\
    length (chefs t) = Z.to_nat nc /\
    forall i, chefs t !! i = Some ChefReturned -> mb <= burgersPrepared (shared t)).
  assert (I s) as (Ht & Hmax & Hlen & Hret).
  { apply (run_invariant I) with acts (boot mb nc); [| |exact Hrun].
    - intros t a t' (Ht & Hmax & Hlen & Hret) R.
      pose proof (step_rel_shared _ _ _ R) as M.
      destruct (shared_move_mono _ _ Ht M) as (Hmono & _).
      destruct (shared_move_config _ _ M) as (Hcfg & _).
      split; [eapply shared_move_typed; eassumption|]. split; [congruence|].
      destruct R as [i Hi|i Hi|Ha|fd Ha|j n w Hj|j r n w Hj|j n w Hj|j n w Hj];
        simpl in *; try (split; [exact Hlen|]; intros i0 Hi0; specialize (Hret i0 Hi0); lia).
      + rewrite length_insert. split; [exact Hlen|]. intros k Hk.
        destruct (decide (k = i)) as [->|Hne].
        * rewrite list_lookup_insert_eq in Hk by (eapply lookup_lt_Some, Hi).
          unfold chef_locked in *.
          destruct (maxBurgers (shared t) <=? burgersPrepared (shared t)) eqn:E;
            simpl in *; [lia|congruence].
        * rewrite list_lookup_insert_ne in Hk by congruence.
          specialize (Hret k Hk). lia.
      + rewrite length_insert. split; [exact Hlen|]. intros k Hk.
        destruct (decide (k = i)) as [->|Hne].
        * rewrite list_lookup_insert_eq in Hk by (eapply lookup_lt_Some, Hi). discriminate.
        * rewrite list_lookup_insert_ne in Hk by congruence. exact (Hret k Hk).
    - split; [apply boot_typed, Hmb|]. split; [reflexivity|].
      split; [apply length_replicate|]. intros i Hi. simpl in Hi.
      apply lookup_replicate in Hi. destruct Hi as [Hi _]. discriminate. }
  split; [exact Hlen|]. intros i Hi. split; [exact (Hret i Hi)|].
  intros Hpos. destruct (reachable_inv mb nc s Hpos Hmb Hreach) as (_ & (_ & Hq & _)).
  specialize (Hret i Hi). lia.
Qed.

Lemma chef_returns_when_quota_prepared_witness :
  length [ChefReturned] = Z.to_nat 1 /\ 1 <= 1.
Proof.
  assert (is_int 1) as H1 by (unfold is_int, INT_MIN, INT_MAX; lia).
  assert (reachable (boot 1 1)
            (System (Globals 1 0 1 1 true) [ChefReturned] MainTest [])) as Hr.
  { exists [ChefLock 0%nat; ChefNotify 0%nat; ChefLock 0%nat]. reflexivity. }
  destruct (chef_returns_when_quota_prepared 1 1 _ H1 Hr) as [Hlen Hret].
  split; [exact Hlen|]. exact (proj1 (Hret 0%nat eq_refl)).
Defined.

(** X6. With a quota that is not positive the server does nothing and
    never ends: no burger is prepared or served, serverRunning stays true,
    every handler leaves its loop at the first test without sending
    anything, and main never leaves the accept loop. *)
Theorem nonpositive_quota_serves_nothing mb nc s :
  mb <= 0 -> reachable (boot mb nc) s ->
  shared s = Globals 0 0 mb nc true /\
  acceptor s <> MainJoining /\
  main_joined s = false /\
  (forall j c, clients s !! j = Some c ->
     wire c = [] /\ (pc (thread c) = LoopTest \/ pc (thread c) = Closed)).
Proof.
  intros Hmb [acts Hrun].
  pose (idle := fun c : client =>
    wire c = [] /\ ordersProcessed (thread c) = 0 /\
    (pc (thread c) = LoopTest \/ pc (thread c) = Closed)).
  pose (I := fun t =>
    shared t = Globals 0 0 mb nc true /\ acceptor t <> MainJoining /\
    Forall (fun p => p <> ChefNotifying) (chefs t) /\ Forall idle (clients t)).
  assert (I s) as (Hg & Hacc & _ & Hcs).
  { apply (run_invariant I) with acts (boot mb nc); [| |exact Hrun].
    - intros t a t' (Hg & Hacc & Hch & Hcs) R.
      destruct R as [i Hi|i Hi|Ha|fd Ha|j n w Hj|j r n w Hj|j n w Hj|j n w Hj];
        unfold I; simpl.
      + assert (chef_locked (shared t) = (shared t, ChefReturned)) as ->.
        { unfold chef_locked. rewrite Hg. simpl.
          destruct (mb <=? 0) eqn:E; [reflexivity|lia]. }
        simpl. split; [exact Hg|]. split; [exact Hacc|]. split; [|exact Hcs].
        apply Forall_insert; [exact Hch|discriminate].
      + destruct (Forall_lookup_1 _ _ _ _ Hch Hi eq_refl).
      + rewrite Hg. simpl. split; [reflexivity|]. split; [discriminate|]. tauto.
      + split; [exact Hg|]. split; [discriminate|]. split; [exact Hch|].
        destruct (0 <=? fd); [|exact Hcs].
        apply Forall_app. split; [exact Hcs|]. apply Forall_singleton.
        unfold idle. simpl. tauto.
      + destruct (Forall_lookup_1 _ _ _ _ Hcs Hj) as (Hw & Hn & Hpc). simpl in *.
        split; [exact Hg|]. split; [exact Hacc|]. split; [exact Hch|].
        apply Forall_insert; [exact Hcs|].
        unfold handler_test. rewrite Hg, Hn. simpl.
        destruct (0 <? mb) eqn:E; [lia|]. unfold idle. simpl. tauto.
      + destruct (Forall_lookup_1 _ _ _ _ Hcs Hj) as (_ & _ & [Hpc|Hpc]); discriminate.
      + destruct (Forall_lookup_1 _ _ _ _ Hcs Hj) as (_ & _ & [Hpc|Hpc]); discriminate.
      + destruct (Forall_lookup_1 _ _ _ _ Hcs Hj) as (_ & _ & [Hpc|Hpc]); discriminate.
    - unfold I. simpl. split; [reflexivity|]. split; [discriminate|].
      split; [apply Forall_replicate; discriminate|constructor]. }
  split; [exact Hg|]. split; [exact Hacc|]. split.
  - unfold main_joined. destruct (acceptor s); try reflexivity. contradiction.
  - intros j c Hj. destruct (Forall_lookup_1 _ _ _ _ Hcs Hj) as (Hw & _ & Hpc). tauto.
Qed.

Lemma nonpositive_quota_serves_nothing_witness :
  shared (System (Globals 0 0 0 2 true) [ChefReturned; ChefLocking] MainAccept
                 [Client (Handler Closed 0) []])
    = Globals 0 0 0 2 true.
Proof.
  apply (nonpositive_quota_serves_nothing 0 2).
  - lia.
  - exists [ChefLock 0%nat; MainLoop; Accept 4; ClientTest 0%nat; MainLoop]. reflexivity.
Defined.

(** X7. main leaves its accept loop only when the shop is closed, and
    once it has left it no session is ever added: the number of client
    threads to join is fixed. *)
Theorem accept_loop_ends_with_the_shop :
  (forall mb nc s,
     is_int mb -> reachable (boot mb nc) s -> acceptor s = MainJoining ->
     serverRunning (shared s) = false) /\
  (forall s acts s',
     acceptor s = MainJoining -> run acts s = Some s' ->
     acceptor s' = MainJoining /\ length (clients s') = length (clients s)).
Proof.
  split.
  - intros mb nc s Hmb [acts Hrun].
    pose (I := fun t =>
      typed (shared t) /\ (acceptor t = MainJoining -> serverRunning (shared t) = false)).
    assert (I s) as [_ H]; [|exact H].
    apply (run_invariant I) with acts (boot mb nc); [| |exact Hrun].
    + intros t a t' (Ht & Hj) R. pose proof (step_rel_shared _ _ _ R) as M.
      destruct (shared_move_mono _ _ Ht M) as (_ & _ & Hstay).
      split; [eapply shared_move_typed; eassumption|].
      destruct R; simpl in *; auto; try discriminate.
      destruct (serverRunning (shared t)); [discriminate|reflexivity].
    + split; [apply boot_typed, Hmb|]. discriminate.
  - intros s acts s' Hj Hrun.
    pose (I := fun t =>
      acceptor t = MainJoining /\ length (clients t) = length (clients s)).
    apply (run_invariant I) with acts s; [|split; [exact Hj|reflexivity]|exact Hrun].
    intros t a t' (Ha & Hlen) R. unfold I.
    destruct R as [i Hi|i Hi|Ha'|fd Ha'|j n w Hj'|j r n w Hj'|j n w Hj'|j n w Hj'];
      simpl; try congruence;
      try (split; [exact Ha|exact Hlen]);
      try (split; [exact Ha|]; rewrite length_insert; exact Hlen).
    + split; [exact Ha|]. unfold notify_all. rewrite length_fmap. exact Hlen.
    + split; [exact Ha|]. destruct (notified _); unfold notify_all;
        rewrite ?length_fmap, length_insert; exact Hlen.
Qed.

Lemma accept_loop_ends_with_the_shop_witness :
  (acceptor (System (Globals 1 1 1 1 false) [ChefNotifying] MainJoining
                    [Client (Handler LoopTest 0) [];
                     Client (Handler Closed 1) [Burger_Served; No_more_burgers]])
     = MainJoining /\
   length [Client (Handler LoopTest 0) [];
           Client (Handler Closed 1) [Burger_Served; No_more_burgers]] = 2%nat) /\
  serverRunning (Globals 1 1 1 1 false) = false.
Proof.
  destruct accept_loop_ends_with_the_shop as [Hclosed Hfixed]. split.
  - apply (Hfixed
             (System (Globals 1 1 1 1 false) [ChefNotifying] MainJoining
                     [Client (Handler Notified 0) [];
                      Client (Handler Closed 1) [Burger_Served; No_more_burgers]])
             [ClientWake 0%nat]); reflexivity.
  - apply (Hclosed 1 1
             (System (Globals 1 1 1 1 false) [ChefNotifying] MainJoining
                     [Client (Handler Notified 0) [];
                      Client (Handler Closed 1) [Burger_Served; No_more_burgers]])).
    + unfold is_int, INT_MIN, INT_MAX. lia.
    + exists (closing_run ++ [MainLoop]). reflexivity.
    + reflexivity.
Defined.

(** ** An order that arrives too late *)

Lemma run_invariant_on (A : action -> Prop) (I : system -> Prop) :
  (forall s a s', I s -> A a -> step_rel s a s' -> I s') ->
  forall acts s s', Forall A acts -> I s -> run acts s = Some s' -> I s'.
Proof.
  intros HI acts. induction acts as [|a acts IH]; simpl; intros s s' HA Hs Hrun.
  - injection Hrun as <-. exact Hs.
  - destruct (step a s) as [s1|] eqn:E; [|discriminate].
    apply Forall_cons in HA. destruct HA as [Ha HA].
    apply (IH s1 s'); [exact HA| |exact Hrun].
    eapply HI; [exact Hs|exact Ha|]. apply step_sound, E.
Qed.

Lemma forallb_lookup_false {A} (f : A -> bool) (l : list A) : forall j x,
  l !! j = Some x -> f x = false -> forallb f l = false.
Proof.
  induction l as [|y l IH]; intros [|j] x Hj Hx; simpl in *; try discriminate.
  - injection Hj as ->. rewrite Hx. reflexivity.
  - rewrite (IH j x Hj Hx). apply andb_false_r.
Qed.

Lemma closed_shop_body r g h :
  closed_shop g -> 0 < bytesReceived r ->
  handler_body r g h = Body g (set_pc Waiting h) [] false.
Proof.
  intros (_ & (Hb & Hq & Hr) & Hf) Hpos. apply Hr in Hf.
  unfold handler_body. destruct (bytesReceived r <=? 0) eqn:E; [lia|].
  apply handler_locked_waits. right. lia.
Qed.

(** X8. An order that arrives after the last burger was served is never
    answered.  In a closed shop a handler that receives a request goes to
    cv_burger_ready.wait with nothing sent; when no chef is left to notify,
    no notify_all ever comes, so unless the wait returns spuriously the
    handler stays blocked whatever the other threads do, and main never
    gets past its joins. *)
Theorem late_order_never_answered s j n w :
  closed_shop (shared s) ->
  Forall (fun p => p <> ChefNotifying) (chefs s) ->
  (forall r h, 0 < bytesReceived r ->
     handler_body r (shared s) h = Body (shared s) (set_pc Waiting h) [] false) /\
  (forall acts s',
     clients s !! j = Some (Client (Handler Waiting n) w) ->
     ~ In (ClientSpurious j) acts -> run acts s = Some s' ->
     clients s' !! j = Some (Client (Handler Waiting n) w) /\ main_joined s' = false).
Proof.
  intros Hclosed Hchefs. split.
  - intros r h Hpos. apply closed_shop_body; assumption.
  - intros acts s' Hj Hacts Hrun.
    pose (I := fun t =>
      shared t = shared s /\ Forall (fun p => p <> ChefNotifying) (chefs t) /\
      clients t !! j = Some (Client (Handler Waiting n) w)).
    assert (I s') as (_ & _ & Hj').
    { apply (run_invariant_on (fun a => a <> ClientSpurious j) I) with acts s;
        [| |split; [reflexivity|split; assumption]|exact Hrun].
      - intros t a t' (Hg & Hch & Hjt) Ha R.
        assert (closed_shop (shared t)) as Hct by (rewrite Hg; exact Hclosed).
        assert (shared t' = shared s) as Hg'.
        { rewrite <- Hg. apply closed_shop_frozen; [exact Hct|].
          eapply step_rel_shared, R. }
        split; [exact Hg'|].
        destruct R as [i Hi|i Hi|Ha'|fd Ha'|k m v Hk|k r m v Hk|k m v Hk|k m v Hk];
          simpl in *.
        + split; [|exact Hjt]. apply Forall_insert; [exact Hch|].
          unfold chef_locked.
          destruct Hct as (_ & (Hb & Hq & Hr) & Hf). apply Hr in Hf.
          destruct (maxBurgers (shared t) <=? burgersPrepared (shared t)) eqn:E;
            [discriminate|lia].
        + destruct (Forall_lookup_1 _ _ _ _ Hch Hi eq_refl).
        + split; assumption.
        + split; [exact Hch|]. destruct (0 <=? fd); [|exact Hjt].
          apply lookup_app_l_Some, Hjt.
        + split; [exact Hch|]. destruct (decide (k = j)) as [->|Hne]; [congruence|].
          rewrite list_lookup_insert_ne by exact Hne. exact Hjt.
        + split; [exact Hch|]. destruct (decide (k = j)) as [->|Hne]; [congruence|].
          assert (notified (handler_body r (shared t) (Handler Receiving m)) = false) as ->.
          { destruct (handler_body_cases r (shared t) (Handler Receiving m))
              as [->|[->|[Hlt _]]]; try reflexivity.
            destruct Hct as (_ & (Hb & Hq & Hr) & Hf). apply Hr in Hf. lia. }
          rewrite list_lookup_insert_ne by exact Hne. exact Hjt.
        + split; [exact Hch|]. destruct (decide (k = j)) as [->|Hne]; [congruence|].
          rewrite list_lookup_insert_ne by exact Hne. exact Hjt.
        + split; [exact Hch|]. destruct (decide (k = j)) as [->|Hne]; [congruence|].
          rewrite list_lookup_insert_ne by exact Hne. exact Hjt.
      - apply Forall_forall. intros a Hin ->. apply Hacts, list_elem_of_In, Hin. }
    split; [exact Hj'|]. unfold main_joined. destruct (acceptor s'); try reflexivity.
    rewrite (forallb_lookup_false handler_over _ _ _ Hj' eq_refl). reflexivity.
Qed.

Lemma late_order_never_answered_witness :
  run late_run (boot 1 1) = Some late_state /\
  handler_body (Recv 5 Order) (shared late_state) (Handler Receiving 0)
    = Body (shared late_state) (Handler Waiting 0) [] false /\
  main_joined (System (Globals 1 1 1 1 false) [ChefReturned] MainJoining (clients late_state))
    = false.
Proof.
  assert (closed_shop (shared late_state)) as Hc.
  { unfold closed_shop, typed, pool_inv, is_int, INT_MIN, INT_MAX. simpl.
    split; [lia|]. split; [|reflexivity]. split; [lia|]. split; [lia|].
    split; reflexivity. }
  assert (Forall (fun p => p <> ChefNotifying) (chefs late_state)) as Hch.
  { apply Forall_singleton. discriminate. }
  destruct (late_order_never_answered late_state 0%nat 0 [] Hc Hch) as [Hbody Hstuck].
  split; [reflexivity|]. split.
  - apply (Hbody (Recv 5 Order) (Handler Receiving 0)). simpl. lia.
  - apply (Hstuck [ChefLock 0%nat; MainLoop]).
    + reflexivity.
    + intros [H|[H|[]]]; discriminate.
    + reflexivity.
Defined.

(** ** Selling out *)

Lemma step_prepare p sv mb acc cs :
  is_int mb -> 0 <= p < mb ->
  step (ChefLock 0%nat) (System (Globals p sv mb 1 true) [ChefLocking] acc cs)
    = Some (System (Globals (p + 1) sv mb 1 true) [ChefNotifying] acc cs).
Proof.
  intros Hmb Hp. simpl. unfold chef_locked. simpl.
  destruct (mb <=? p) eqn:E; [lia|].
  rewrite (incr_below p mb); [reflexivity| |exact Hmb|lia].
  unfold is_int, INT_MIN, INT_MAX in *. lia.
Qed.

Lemma prepare_all_run mb k : forall p,
  is_int mb -> 0 <= p -> p + Z.of_nat k <= mb ->
  run (prepare_all k) (System (Globals p 0 mb 1 true) [ChefLocking] MainTest [])
    = Some (System (Globals (p + Z.of_nat k) 0 mb 1 true) [ChefLocking] MainTest []).
Proof.
  induction k as [|k IH]; intros p Hmb Hp Hle.
  - simpl. rewrite Z.add_0_r. reflexivity.
  - cbn [prepare_all run]. rewrite step_prepare by (assumption || lia).
    cbn [step chefs lookup list_lookup]. simpl.
    rewrite IH by (assumption || lia).
    replace (p + 1 + Z.of_nat k) with (p + Z.of_nat (S k)) by lia. reflexivity.
Qed.

Lemma step_order_test mb q w :
  q < mb ->
  step (ClientTest 0%nat)
       (System (Globals mb q mb 1 true) [ChefLocking] MainTest [Client (Handler LoopTest q) w])
    = Some (System (Globals mb q mb 1 true) [ChefLocking] MainTest
                   [Client (Handler Receiving q) w]).
Proof.
  intros Hq. simpl. unfold handler_test. simpl.
  destruct (q <? mb) eqn:E; [reflexivity|lia].
Qed.

Lemma step_order_recv mb q w :
  is_int mb -> 0 <= q < mb ->
  step (ClientRecv 0%nat (Recv 5 Order))
       (System (Globals mb q mb 1 true) [ChefLocking] MainTest [Client (Handler Receiving q) w])
    = Some (if mb <=? q + 1
            then System (Globals mb (q + 1) mb 1 false) [ChefLocking] MainTest
                        [Client (Handler Closed (q + 1)) (w ++ [Burger_Served; No_more_burgers])]
            else System (Globals mb (q + 1) mb 1 true) [ChefLocking] MainTest
                        [Client (Handler LoopTest (q + 1)) (w ++ [Burger_Served])]).
Proof.
  intros Hmb Hq.
  assert (is_int q) as Hqi by (unfold is_int, INT_MIN, INT_MAX in *; lia).
  assert (handler_body (Recv 5 Order) (Globals mb q mb 1 true) (Handler Receiving q)
          = serve_burger (Globals mb q mb 1 true) (Handler Receiving q)) as Hbody.
  { unfold handler_body. simpl. apply handler_locked_served; [reflexivity|simpl; lia]. }
  cbn [step clients lookup list_lookup shared]. simpl lookup. cbv zeta.
  rewrite Hbody. unfold serve_burger. simpl.
  rewrite (incr_below q mb Hqi Hmb) by lia.
  destruct (mb <=? q + 1); reflexivity.
Qed.

Lemma order_all_run mb k : forall q w,
  is_int mb -> 0 <= q -> q + Z.of_nat k < mb ->
  run (order_all k)
      (System (Globals mb q mb 1 true) [ChefLocking] MainTest [Client (Handler LoopTest q) w])
    = Some (System (Globals mb (q + Z.of_nat k) mb 1 true) [ChefLocking] MainTest
                   [Client (Handler LoopTest (q + Z.of_nat k)) (w ++ replicate k Burger_Served)]).
Proof.
  induction k as [|k IH]; intros q w Hmb Hq Hlt.
  - simpl. rewrite Z.add_0_r, app_nil_r. reflexivity.
  - cbn [order_all run]. rewrite step_order_test by lia.
    rewrite step_order_recv by (assumption || lia).
    destruct (mb <=? q + 1) eqn:E; [lia|].
    rewrite IH by (assumption || lia).
    replace (q + 1 + Z.of_nat k) with (q + Z.of_nat (S k)) by lia.
    rewrite <- app_assoc. reflexivity.
Qed.

Lemma order_all_snoc k :
  order_all (S k) = order_all k ++ [ClientTest 0%nat; ClientRecv 0%nat (Recv 5 Order)].
Proof. induction k as [|k IH]; [reflexivity|]. cbn [order_all] in *. rewrite IH at 1. reflexivity. Qed.

(** X9. The server can always sell out: for every positive quota n,
    when the one chef has prepared n burgers and one client sends n orders
    in sequence, the client is sent "Burger Served" n times,
    the last one followed at once by "No more burgers", and the server ends
    with burgersPrepared = burgersServed = n and serverRunning false. *)
Theorem sell_out_serves_the_quota n :
  (0 < n)%nat -> is_int (Z.of_nat n) ->
  run (sell_out n) (boot (Z.of_nat n) 1)
    = Some (System (Globals (Z.of_nat n) (Z.of_nat n) (Z.of_nat n) 1 false)
                   [ChefLocking] MainTest
                   [Client (Handler Closed (Z.of_nat n))
                           (replicate n Burger_Served ++ [No_more_burgers])]).
Proof.
  intros Hn Hint. destruct n as [|m]; [lia|]. set (mb := Z.of_nat (S m)) in *.
  unfold sell_out.
  rewrite (run_app _ _ _ _ (prepare_all_run mb (S m) 0 Hint ltac:(lia) ltac:(lia))).
  rewrite order_all_snoc, app_assoc.
  replace (0 + Z.of_nat (S m)) with mb by lia.
  assert (run ([MainLoop; Accept 4] ++ order_all m)
              (System (Globals mb 0 mb 1 true) [ChefLocking] MainTest [])
          = Some (System (Globals mb (Z.of_nat m) mb 1 true) [ChefLocking] MainTest
                         [Client (Handler LoopTest (Z.of_nat m)) (replicate m Burger_Served)]))
    as Hmid.
  { assert (run [MainLoop; Accept 4]
                (System (Globals mb 0 mb 1 true) [ChefLocking] MainTest [])
            = Some (System (Globals mb 0 mb 1 true) [ChefLocking] MainTest
                           [Client (Handler LoopTest 0) []])) as Hpre by reflexivity.
    rewrite (run_app _ _ _ _ Hpre).
    rewrite (order_all_run mb m 0 []) by (assumption || lia).
    reflexivity. }
  rewrite (run_app _ _ _ _ Hmid). cbn [run].
  rewrite step_order_test by lia.
  rewrite step_order_recv by (assumption || lia).
  destruct (mb <=? Z.of_nat m + 1) eqn:E; [|lia].
  replace (Z.of_nat m + 1) with mb by lia.
  replace (replicate m Burger_Served ++ [Burger_Served; No_more_burgers])
    with (replicate (S m) Burger_Served ++ [No_more_burgers]); [reflexivity|].
  rewrite replicate_S_end, <- app_assoc. reflexivity.
Qed.

Lemma sell_out_serves_the_quota_witness :
  run (sell_out 5) (boot 5 1)
    = Some (System (Globals 5 5 5 1 false) [ChefLocking] MainTest
                   [Client (Handler Closed 5)
                           [Burger_Served; Burger_Served; Burger_Served; Burger_Served;
                            Burger_Served; No_more_burgers]]).
Proof.
  apply (sell_out_serves_the_quota 5).
  - lia.
  - unfold is_int, INT_MIN, INT_MAX. lia.
Defined.

Lemma classic_order buf g :
  (c_string buf = Order /\ burgersServed g < burgersPrepared g) \/
  (c_string buf <> Order \/ burgersPrepared g <= burgersServed g).
Proof.
  destruct (String.eqb_spec (c_string buf) Order) as [E|E]; [|right; left; exact E].
  destruct (Z.lt_ge_cases (burgersServed g) (burgersPrepared g)); [left|right; right]; tauto.
Qed.

(** X10. Which requests are answered.  The handler sends something for a
    request exactly when recv returned a positive count, the buffer holds
    the C string "Order" and a burger is available; for a payload without
    zero bytes that means the payload is the five bytes "Order" and nothing
    else, so an order followed by a newline, or two orders that arrive in
    one recv, are not answered. *)
Theorem request_answered_iff r g h :
  (sent (handler_body r g h) <> [] <->
     0 < bytesReceived r /\ c_string (orderBuffer r) = Order /\
     burgersServed g < burgersPrepared g) /\
  ((forall c, In c (list_ascii_of_string (orderBuffer r)) -> c <> NUL) ->
   sent (handler_body r g h) <> [] -> orderBuffer r = Order).
Proof.
  assert (sent (handler_body r g h) <> [] <->
          0 < bytesReceived r /\ c_string (orderBuffer r) = Order /\
          burgersServed g < burgersPrepared g) as Hiff.
  { unfold handler_body. destruct (bytesReceived r <=? 0) eqn:E.
    - simpl. split; [congruence|lia].
    - destruct (classic_order (orderBuffer r) g) as [[Hbuf Hlt]|Hno].
      + rewrite handler_locked_served by assumption.
        unfold serve_burger. split.
        * intros _. split; [lia|]. split; assumption.
        * intros _. simpl. destruct (maxBurgers g <=? _); simpl; discriminate.
      + rewrite handler_locked_waits by exact Hno. simpl.
        split; [congruence|]. intros (_ & Hbuf & Hlt). destruct Hno; [contradiction|lia]. }
  split; [exact Hiff|].
  intros Hnul Hsent. apply Hiff in Hsent. destruct Hsent as (_ & Hbuf & _).
  rewrite <- (c_string_no_NUL _ Hnul). exact Hbuf.
Qed.

Lemma request_answered_iff_witness :
  orderBuffer (Recv 5 Order) = Order.
Proof.
  apply (proj2 (request_answered_iff (Recv 5 Order) (Globals 2 1 3 1 true)
                  (Handler Receiving 1))).
  - intros c Hin. simpl in Hin.
    repeat (destruct Hin as [<-|Hin]; [discriminate|]). destruct Hin.
  - discriminate.
Defined.

(** * Properties of the client *)

(** [strncmp] over the length of a literal answers 0 exactly when the
    buffer starts with the literal. *)
Lemma strncmp_prefix lit :
  (forall c, In c (list_ascii_of_string lit) -> c <> NUL) ->
  forall a, Client.strncmp a lit (String.length lit) = 0 <->
            exists rest, a = (lit ++ rest)%string.
Proof.
  induction lit as [|d lit IH]; intros Hnul a.
  - simpl. split; [intros _; exists a; reflexivity|reflexivity].
  - assert (d <> NUL) as Hd by (apply Hnul; left; reflexivity).
    assert (forall c, In c (list_ascii_of_string lit) -> c <> NUL) as Hrest.
    { intros c Hc. apply Hnul. right. exact Hc. }
    destruct a as [|c a]; simpl.
    + split.
      * intros H. exfalso. apply Hd, code_zero. lia.
      * intros [rest H]. discriminate.
    + destruct (Ascii.eqb_spec c d) as [->|Hcd].
      * destruct (Ascii.eqb_spec d NUL) as [E|_]; [contradiction|].
        rewrite (IH Hrest a). split.
        -- intros [rest ->]. exists rest. reflexivity.
        -- intros [rest H]. injection H as ->. exists rest. reflexivity.
      * split.
        -- intros H. exfalso. apply Hcd, code_inj. lia.
        -- intros [rest H]. injection H as -> _. contradiction.
Qed.

Lemma served_prefix a :
  (Client.strncmp a Burger_Served 13 =? 0) = true <->
  exists rest, a = (Burger_Served ++ rest)%string.
Proof.
  rewrite Z.eqb_eq. apply (strncmp_prefix Burger_Served).
  intros c Hin. simpl in Hin.
  repeat (destruct Hin as [<-|Hin]; [discriminate|]). destruct Hin.
Qed.

Lemma closed_prefix a :
  (Client.strncmp a No_more_burgers 15 =? 0) = true <->
  exists rest, a = (No_more_burgers ++ rest)%string.
Proof.
  rewrite Z.eqb_eq. apply (strncmp_prefix No_more_burgers).
  intros c Hin. simpl in Hin.
  repeat (destruct Hin as [<-|Hin]; [discriminate|]). destruct Hin.
Qed.

Lemma order_loop_bounds talk todo : forall i o e,
  0 <= e <= o ->
  e <= Client.eaten (Client.order_loop talk todo i o e) /\
  Client.eaten (Client.order_loop talk todo i o e)
    <= Client.ordered (Client.order_loop talk todo i o e) /\
  o <= Client.ordered (Client.order_loop talk todo i o e) /\
  Client.ordered (Client.order_loop talk todo i o e) <= o + Z.of_nat todo /\
  (Client.ended (Client.order_loop talk todo i o e) = Client.OrdersDone ->
   Client.ordered (Client.order_loop talk todo i o e) = o + Z.of_nat todo).
Proof.
  induction todo as [|k IH]; intros i o e He.
  - simpl. repeat split; try lia.
  - cbn [Client.order_loop]. cbv zeta.
    destruct (Client.sendResult (talk i) <? 0); [simpl; repeat split; try lia; discriminate|].
    destruct (0 <? Client.bytesReceived (talk i));
      [|simpl; repeat split; try lia; discriminate].
    destruct (Client.strncmp _ Burger_Served 13 =? 0).
    + destruct (IH (S i) (o + 1) (e + 1) ltac:(lia)) as (H1 & H2 & H3 & H4 & H5).
      repeat split; try lia. intros H. rewrite (H5 H). lia.
    + destruct (Client.strncmp _ No_more_burgers 15 =? 0);
        [simpl; repeat split; try lia; discriminate|].
      destruct (IH (S i) (o + 1) e ltac:(lia)) as (H1 & H2 & H3 & H4 & H5).
      repeat split; try lia. intros H. rewrite (H5 H). lia.
Qed.

(** X11. The client never orders more than maxOrders burgers and never
    eats more than it ordered, whatever the network does; with maxOrders
    not positive it sends nothing, and when its loop runs to the end it has
    sent exactly maxOrders orders. *)
Theorem client_orders_bounded talk maxOrders :
  0 <= Client.eaten (Client.order_loop talk (Z.to_nat maxOrders) 0 0 0) /\
  Client.eaten (Client.order_loop talk (Z.to_nat maxOrders) 0 0 0)
    <= Client.ordered (Client.order_loop talk (Z.to_nat maxOrders) 0 0 0) /\
  Client.ordered (Client.order_loop talk (Z.to_nat maxOrders) 0 0 0) <= Z.max 0 maxOrders /\
  (Client.ended (Client.order_loop talk (Z.to_nat maxOrders) 0 0 0) = Client.OrdersDone ->
   Client.ordered (Client.order_loop talk (Z.to_nat maxOrders) 0 0 0) = Z.max 0 maxOrders) /\
  (maxOrders <= 0 ->
   Client.order_loop talk (Z.to_nat maxOrders) 0 0 0 = Client.Tally 0 0 Client.OrdersDone).
Proof.
  destruct (order_loop_bounds talk (Z.to_nat maxOrders) 0 0 0 ltac:(lia))
    as (H1 & H2 & H3 & H4 & H5).
  split; [lia|]. split; [lia|]. split; [lia|]. split.
  - intros H. rewrite (H5 H). lia.
  - intros Hle. replace (Z.to_nat maxOrders) with 0%nat by lia. reflexivity.
Qed.

Lemma client_orders_bounded_witness :
  Client.order_loop always_served (Z.to_nat (-2)) 0 0 0 = Client.Tally 0 0 Client.OrdersDone /\
  Client.ordered (Client.order_loop always_served (Z.to_nat 3) 0 0 0) = Z.max 0 3.
Proof.
  split.
  - apply (client_orders_bounded always_served (-2)). lia.
  - apply (client_orders_bounded always_served 3). reflexivity.
Defined.

(** X12. The client tells the server's replies apart by their first
    bytes only.  After a successful send and a read that returned data: a
    buffer that starts with "Burger Served" counts as a burger and the loop
    goes on, whatever follows in the buffer (the closing message too, when
    both sends of the server arrive in one read); a buffer that starts with
    "No more burgers" ends the loop; any other data is ignored and the
    client orders again. *)
Theorem client_reads_replies_by_prefix talk k i o e :
  0 <= Client.sendResult (talk i) -> 0 < Client.bytesReceived (talk i) ->
  ((exists rest, Client.buffer (talk i) = (Burger_Served ++ rest)%string) ->
     Client.order_loop talk (S k) i o e = Client.order_loop talk k (S i) (o + 1) (e + 1)) /\
  ((exists rest, Client.buffer (talk i) = (No_more_burgers ++ rest)%string) ->
     Client.order_loop talk (S k) i o e = Client.Tally (o + 1) e Client.ShopClosed) /\
  (~ (exists rest, Client.buffer (talk i) = (Burger_Served ++ rest)%string) ->
   ~ (exists rest, Client.buffer (talk i) = (No_more_burgers ++ rest)%string) ->
     Client.order_loop talk (S k) i o e = Client.order_loop talk k (S i) (o + 1) e).
Proof.
  intros Hsend Hread. cbn [Client.order_loop]. cbv zeta.
  destruct (Client.sendResult (talk i) <? 0) eqn:E1; [lia|].
  destruct (0 <? Client.bytesReceived (talk i)) eqn:E2; [|lia].
  destruct (Client.strncmp (Client.buffer (talk i)) Burger_Served 13 =? 0) eqn:Eb.
  - apply served_prefix in Eb. split; [reflexivity|]. split.
    + intros [rest Hc]. destruct Eb as [rest' Hb]. rewrite Hc in Hb. discriminate.
    + intros Hn. contradiction.
  - assert (~ exists rest, Client.buffer (talk i) = (Burger_Served ++ rest)%string) as Hnb.
    { intros H. apply served_prefix in H. congruence. }
    split; [intros H; contradiction|].
    destruct (Client.strncmp (Client.buffer (talk i)) No_more_burgers 15 =? 0) eqn:Ec.
    + apply closed_prefix in Ec. split; [reflexivity|]. intros _ Hn. contradiction.
    + split; [|reflexivity]. intros H. apply closed_prefix in H. congruence.
Qed.

Lemma client_reads_replies_by_prefix_witness :
  Client.order_loop (fun _ => Client.Exchange 5 28 "Burger ServedNo more burgers") 1 0 0 0
    = Client.Tally 1 1 Client.OrdersDone /\
  Client.order_loop (fun _ => Client.Exchange 5 15 No_more_burgers) 3 0 0 0
    = Client.Tally 1 0 Client.ShopClosed /\
  Client.order_loop (fun _ => Client.Exchange 5 2 "ok") 1 0 0 0
    = Client.Tally 1 0 Client.OrdersDone.
Proof.
  split; [|split].
  - apply (proj1 (client_reads_replies_by_prefix
                    (fun _ => Client.Exchange 5 28 "Burger ServedNo more burgers") 0 0 0 0
                    ltac:(simpl; lia) ltac:(simpl; lia))).
    exists No_more_burgers. reflexivity.
  - apply (proj1 (proj2 (client_reads_replies_by_prefix
                    (fun _ => Client.Exchange 5 15 No_more_burgers) 2 0 0 0
                    ltac:(simpl; lia) ltac:(simpl; lia)))).
    exists EmptyString. reflexivity.
  - apply (proj2 (proj2 (client_reads_replies_by_prefix
                    (fun _ => Client.Exchange 5 2 "ok") 0 0 0 0
                    ltac:(simpl; lia) ltac:(simpl; lia)))).
    + intros [rest H]. discriminate.
    + intros [rest H]. discriminate.
Defined.

Lemma order_loop_burger_step talk k i o e :
  0 <= Client.sendResult (talk i) -> 0 < Client.bytesReceived (talk i) ->
  (exists rest, Client.buffer (talk i) = (Burger_Served ++ rest)%string) ->
  Client.order_loop talk (S k) i o e = Client.order_loop talk k (S i) (o + 1) (e + 1).
Proof.
  intros Hsend Hread Hb. apply served_prefix in Hb.
  cbn [Client.order_loop]. cbv zeta. rewrite Hb.
  destruct (Client.sendResult (talk i) <? 0) eqn:E1; [lia|].
  destruct (0 <? Client.bytesReceived (talk i)) eqn:E2; [reflexivity|lia].
Qed.

Lemma order_loop_burgers talk k : forall todo i o e,
  (forall x, (x < k)%nat ->
     0 <= Client.sendResult (talk (i + x)%nat) /\
     0 < Client.bytesReceived (talk (i + x)%nat) /\
     exists rest, Client.buffer (talk (i + x)%nat) = (Burger_Served ++ rest)%string) ->
  Client.order_loop talk (k + todo) i o e =
  Client.order_loop talk todo (i + k) (o + Z.of_nat k) (e + Z.of_nat k).
Proof.
  induction k as [|k IH]; intros todo i o e Hall.
  - simpl. rewrite Nat.add_0_r, !Z.add_0_r. reflexivity.
  - destruct (Hall 0%nat ltac:(lia)) as (Hs & Hr & Hb). rewrite Nat.add_0_r in Hs, Hr, Hb.
    change (S k + todo)%nat with (S (k + todo)).
    rewrite (order_loop_burger_step talk (k + todo) i o e Hs Hr Hb).
    rewrite IH.
    + replace (S i + k)%nat with (i + S k)%nat by lia.
      replace (o + 1 + Z.of_nat k) with (o + Z.of_nat (S k)) by lia.
      replace (e + 1 + Z.of_nat k) with (e + Z.of_nat (S k)) by lia. reflexivity.
    + intros x Hx. replace (S i + x)%nat with (i + S x)%nat by lia.
      apply Hall. lia.
Qed.

(** X13. A client that is served k burgers in a row ends as the server
    lets it: if the next read starts with "No more burgers" it stops with k
    burgers eaten and k+1 orders sent; if the next read returns nothing
    (the handler closed the socket without a message) it stops the same way
    with "No response"; and if k is maxOrders it has eaten all it asked
    for. *)
Theorem client_eats_until_closed talk k maxOrders :
  (forall x, (x < k)%nat ->
     0 <= Client.sendResult (talk x) /\ 0 < Client.bytesReceived (talk x) /\
     exists rest, Client.buffer (talk x) = (Burger_Served ++ rest)%string) ->
  (Z.of_nat k < maxOrders -> 0 <= Client.sendResult (talk k) ->
   0 < Client.bytesReceived (talk k) ->
   (exists rest, Client.buffer (talk k) = (No_more_burgers ++ rest)%string) ->
   Client.order_loop talk (Z.to_nat maxOrders) 0 0 0
     = Client.Tally (Z.of_nat k + 1) (Z.of_nat k) Client.ShopClosed) /\
  (Z.of_nat k < maxOrders -> 0 <= Client.sendResult (talk k) ->
   Client.bytesReceived (talk k) <= 0 ->
   Client.order_loop talk (Z.to_nat maxOrders) 0 0 0
     = Client.Tally (Z.of_nat k + 1) (Z.of_nat k) Client.NoResponse) /\
  (Z.of_nat k = maxOrders ->
   Client.order_loop talk (Z.to_nat maxOrders) 0 0 0
     = Client.Tally (Z.of_nat k) (Z.of_nat k) Client.OrdersDone).
Proof.
  intros Hall.
  assert (forall todo, Client.order_loop talk (k + todo) 0 0 0 =
                       Client.order_loop talk todo k (Z.of_nat k) (Z.of_nat k)) as Hrun.
  { intros todo. rewrite (order_loop_burgers talk k todo 0 0 0); [reflexivity|].
    intros x Hx. apply Hall, Hx. }
  split; [|split].
  - intros Hk Hs Hr Hc. apply closed_prefix in Hc.
    replace (Z.to_nat maxOrders) with (k + S (Z.to_nat maxOrders - k - 1))%nat by lia.
    rewrite Hrun. cbn [Client.order_loop]. cbv zeta.
    destruct (Client.sendResult (talk k) <? 0) eqn:E1; [lia|].
    destruct (0 <? Client.bytesReceived (talk k)) eqn:E2; [|lia].
    destruct (Client.strncmp (Client.buffer (talk k)) Burger_Served 13 =? 0) eqn:Eb.
    + apply served_prefix in Eb. apply closed_prefix in Hc.
      destruct Eb as [r1 E]. destruct Hc as [r2 E']. rewrite E in E'. discriminate.
    + rewrite Hc. reflexivity.
  - intros Hk Hs Hr.
    replace (Z.to_nat maxOrders) with (k + S (Z.to_nat maxOrders - k - 1))%nat by lia.
    rewrite Hrun. cbn [Client.order_loop]. cbv zeta.
    destruct (Client.sendResult (talk k) <? 0) eqn:E1; [lia|].
    destruct (0 <? Client.bytesReceived (talk k)) eqn:E2; [lia|reflexivity].
  - intros Hk. replace (Z.to_nat maxOrders) with (k + 0)%nat by lia.
    rewrite Hrun. reflexivity.
Qed.

Lemma client_eats_until_closed_witness :
  Client.order_loop always_served (Z.to_nat 3) 0 0 0 = Client.Tally 3 3 Client.OrdersDone /\
  Client.order_loop
    (fun i => match i with
              | O => Client.Exchange 5 13 Burger_Served
              | _ => Client.Exchange 5 0 EmptyString
              end) (Z.to_nat 10) 0 0 0
    = Client.Tally 2 1 Client.NoResponse.
Proof.
  split.
  - apply (proj2 (proj2 (client_eats_until_closed always_served 3 3
             ltac:(intros x Hx; simpl; split; [lia|split; [lia|exists EmptyString; reflexivity]])))).
    reflexivity.
  - apply (proj1 (proj2 (client_eats_until_closed
             (fun i => match i with
                       | O => Client.Exchange 5 13 Burger_Served
                       | _ => Client.Exchange 5 0 EmptyString
                       end) 1 10
             ltac:(intros x Hx; destruct x; [|lia]; simpl;
                   split; [lia|split; [lia|exists EmptyString; reflexivity]])))).
    + lia.
    + simpl. lia.
    + simpl. lia.
Defined.

Lemma stoi_is_int s v : Client.stoi s = Some v -> is_int v.
Proof.
  unfold Client.stoi.
  destruct (match skip_space s with
            | String "-"%char r => (true, r)
            | String "+"%char r => (false, r)
            | _ => (false, skip_space s)
            end) as [negative u].
  destruct u as [|c r]; [discriminate|].
  destruct (digit_of c); [|discriminate].
  match goal with |- context [andb (INT_MIN <=? ?x) (?x <=? INT_MAX)] =>
    destruct (INT_MIN <=? x) eqn:E1; destruct (x <=? INT_MAX) eqn:E2;
    simpl; try discriminate end.
  intros H. injection H as <-. apply Z.leb_le in E1, E2. split; assumption.
Qed.

Lemma session_finished ip m net t :
  Client.session ip m net = Client.Finished t ->
  0 <= Client.socket_fd net /\ 0 < Client.inet_pton net ip /\ 0 <= Client.connect net /\
  t = Client.order_loop (Client.talk net) (Z.to_nat m) 0 0 0.
Proof.
  unfold Client.session.
  destruct (Client.socket_fd net <? 0) eqn:E1; [discriminate|].
  destruct (Client.inet_pton net ip <=? 0) eqn:E2; [discriminate|].
  destruct (Client.connect net <? 0) eqn:E3; [discriminate|].
  intros H. injection H as <-. repeat split; lia.
Qed.

(** X14. What the client program does with its arguments.  With a number
    of arguments other than none or three it prints the usage line and
    never touches the network; with three arguments of which the port or
    the order count is not a number, stoi throws and nothing catches it;
    and whenever the order loop has run, socket and connect had succeeded
    and the client sent at most INT_MAX orders, at most 10 when started
    without arguments. *)
Theorem client_main_outcomes argv net :
  (length argv <> 1%nat -> length argv <> 4%nat ->
     Client.main argv net = Client.Usage (Client.usage (nth 0 argv EmptyString))) /\
  (length argv = 4%nat ->
     Client.stoi (nth 2 argv EmptyString) = None \/
     Client.stoi (nth 3 argv EmptyString) = None ->
     Client.main argv net = Client.Thrown) /\
  (forall t, Client.main argv net = Client.Finished t ->
     (length argv = 1%nat \/ length argv = 4%nat) /\
     0 <= Client.socket_fd net /\ 0 <= Client.connect net /\
     0 <= Client.eaten t <= Client.ordered t /\
     Client.ordered t <= INT_MAX /\
     (length argv = 1%nat -> Client.ordered t <= 10)).
Proof.
  unfold Client.main. split; [|split].
  - intros H1 H4.
    destruct (Z.of_nat (length argv) =? 4) eqn:E4; [lia|].
    destruct (Z.of_nat (length argv) =? 1) eqn:E1; [lia|reflexivity].
  - intros H4 Hbad. destruct (Z.of_nat (length argv) =? 4) eqn:E4; [|lia].
    destruct (Client.stoi (nth 2 argv EmptyString)); [|reflexivity].
    destruct (Client.stoi (nth 3 argv EmptyString)); [|reflexivity].
    destruct Hbad; discriminate.
  - intros t. destruct (Z.of_nat (length argv) =? 4) eqn:E4.
    + destruct (Client.stoi (nth 2 argv EmptyString)); [|discriminate].
      destruct (Client.stoi (nth 3 argv EmptyString)) as [m|] eqn:Em; [|discriminate].
      intros H. apply session_finished in H. destruct H as (Hs & _ & Hc & ->).
      apply stoi_is_int in Em. unfold is_int in Em.
      destruct (order_loop_bounds (Client.talk net) (Z.to_nat m) 0 0 0 ltac:(lia))
        as (H1 & H2 & H3 & H4 & _).
      split; [right; lia|]. split; [exact Hs|]. split; [exact Hc|].
      split; [lia|]. split; [unfold INT_MIN, INT_MAX in *; lia|]. intros Hlen. lia.
    + destruct (Z.of_nat (length argv) =? 1) eqn:E1; [|discriminate]. simpl.
      intros H. apply session_finished in H. destruct H as (Hs & _ & Hc & ->).
      destruct (order_loop_bounds (Client.talk net) (Z.to_nat 10) 0 0 0 ltac:(lia))
        as (H1 & H2 & H3 & H4 & _).
      split; [left; lia|]. split; [exact Hs|]. split; [exact Hc|].
      split; [lia|]. split; [unfold INT_MAX; lia|]. intros _. lia.
Qed.

Lemma client_main_outcomes_witness :
  Client.main ["./client"; "127.0.0.1"]%string
              (Client.Network 3 (fun _ => 1) 0 always_served)
    = Client.Usage "Usage: ./client <ServerIP> <Port> <MaxOrders>" /\
  Client.main ["./client"; "127.0.0.1"; "port"; "5"]%string
              (Client.Network 3 (fun _ => 1) 0 always_served)
    = Client.Thrown /\
  Client.ordered (Client.Tally 10 10 Client.OrdersDone) <= 10.
Proof.
  split; [|split].
  - apply (proj1 (client_main_outcomes ["./client"; "127.0.0.1"]%string
                    (Client.Network 3 (fun _ => 1) 0 always_served))); discriminate.
  - apply (proj1 (proj2 (client_main_outcomes
                    ["./client"; "127.0.0.1"; "port"; "5"]%string
                    (Client.Network 3 (fun _ => 1) 0 always_served)))).
    + reflexivity.
    + left. reflexivity.
  - apply (proj2 (proj2 (client_main_outcomes ["./client"]%string
                    (Client.Network 3 (fun _ => 1) 0 always_served)))
             (Client.Tally 10 10 Client.OrdersDone)).
    + reflexivity.
    + reflexivity.
Defined.
